(** * blobberc: the blob upload client, retry and failover over a host pool

    A shallow embedding of [blobberc.py] (Python 2) and the properties of
    its upload loop.  Python values are modelled as follows.

    - [str] is [string]; the bytes read from a file opened with ['rb'] are
      a [list byte]; [int] is [Z].
    - A Python [list] is a mutable object: the model keeps a [heap] of list
      objects and a variable holding a list is a location [loc] in it.
      [hosts[:]] allocates, [random.shuffle] and [list.pop] update in place.
    - The servers, the network and the random number generator are the
      [World] of an environment [Env]: every call to [requests.post],
      [requests.head] and [random] steps it.
    - Every effect the program has on its surroundings (a log record, a
      POST, a HEAD) is an [event]; a computation returns the events it
      emitted, in order.
    - A raised exception is the result [Raise e]: nothing in [blobberc.py]
      catches one, so it ends every computation that contains it. *)

From stdpp Require Import base list strings gmap pretty.
From Stdlib.Strings Require Import Byte.

Set Default Proof Using "Type".

(** ** Values of the surrounding libraries *)

Inductive exn :=
  | IOError (path : string)             (* open() failed *)
  | OSError (path : string)             (* os.listdir() failed *)
  | ValueError (what : string)          (* hashlib.new(): unsupported hash type *)
  | IndexError (what : string)          (* pop from empty list *)
  | RequestException (what : string).   (* requests: connection, TLS, timeout, bad URL *)

Inductive level := DEBUG | INFO | WARNING.

(** What the program reads of a [requests.Response]. *)
Record Response := mkResponse {
  status_code : Z;
  headers : gmap string string
}.

(** [Response.ok]: [raise_for_status()] does not raise, that is, the status
    is not a 4xx or 5xx one. *)
Definition ok (r : Response) : bool :=
  negb (bool_decide (400 ≤ status_code r)%Z && bool_decide (status_code r < 600)%Z).

(** The arguments [_post_file] gives to [requests.post]. *)
Record PostRequest := mkPostRequest {
  url : string;
  auth : string * string;
  files : list (string * list byte);
  data : list (string * string);
  verify : string
}.

(** A [hashlib] hash object: its state, [update] and [hexdigest]. *)
Record Hasher := mkHasher {
  hstate : Type;
  h_new : hstate;
  h_update : hstate → list byte → hstate;
  h_hexdigest : hstate → string
}.

(** The environment of a run.  [random_below w k] is a draw
    [int(random() * k)]; [cert_where] is [blobuploader.cert.where()], the
    path of the CA bundle, a module that is not part of [blobberc.py]. *)
Record Env := mkEnv {
  World : Type;
  requests_post : World → PostRequest → (exn + Response) * World;
  requests_head : World → string → (exn + Response) * World;
  random_below : World → nat → nat * World;
  hashlib_new : string → option Hasher;
  urljoin : string → string → string;
  cert_where : string
}.

(** The local file system, as far as the program looks at it:
    [fs_read p] is the contents [open(p, 'rb')] gives ([None]: [open]
    raises), [fs_isfile] is [os.path.isfile], [fs_listdir] is
    [os.listdir] ([None]: it raises). *)
Record FileSystem := mkFileSystem {
  fs_read : string → option (list byte);
  fs_isfile : string → bool;
  fs_listdir : string → option (list string)
}.

Definition loc := nat.

(** An effect visible outside the process.  A [Post] event also records
    the [host], [hashalgo] and [blobhash] arguments of the [_post_file]
    call that made the request. *)
Inductive event :=
  | Log (lvl : level) (msg : string)
  | Post (host hashalgo blobhash : string) (req : PostRequest) (res : exn + Response)
  | Head (blob_url : string) (res : exn + Response).

(** The terminal result of one file's upload: [Succeeded blob_url] when
    the loop ends with [file_uploaded = True] ([blob_url] is the variable
    in scope there), [Failed] when it ends with [file_uploaded = False]. *)
Inductive UploadOutcome :=
  | Succeeded (blob_url : string)
  | Failed.

Definition file_uploaded (o : UploadOutcome) : bool :=
  match o with Succeeded _ => true | Failed => false end.

(** ** The monad of computations *)

(** [Ret a]: normal completion; [Raise e]: an exception propagates;
    [Stuck]: the model gave up (a dangling location or a loop out of
    fuel), which no run of the program does: see [upload_file_not_stuck]. *)
Inductive Res (A : Type) :=
  | Ret (a : A)
  | Raise (e : exn)
  | Stuck.
Arguments Ret {A} a.
Arguments Raise {A} e.
Arguments Stuck {A}.

Section Blobberc.
Context (E : Env).

Record State := mkState {
  world : World E;
  fs : FileSystem;
  heap : list (list string)
}.

Definition M (A : Type) : Type := State → Res A * State * list event.

(** The three parts of what a computation gives. *)
Definition result {A} (x : Res A * State * list event) : Res A := x.1.1.
Definition final {A} (x : Res A * State * list event) : State := x.1.2.
Definition trace {A} (x : Res A * State * list event) : list event := x.2.

Definition ret {A} (a : A) : M A := λ s, (Ret a, s, []).

Definition bind {A B} (m : M A) (k : A → M B) : M B := λ s,
  match m s with
  | (Ret a, s1, t1) => let '(r, s2, t2) := k a s1 in (r, s2, t1 ++ t2)
  | (Raise e, s1, t1) => (Raise e, s1, t1)
  | (Stuck, s1, t1) => (Stuck, s1, t1)
  end.

Definition raise {A} (e : exn) : M A := λ s, (Raise e, s, []).
Definition stuck {A} : M A := λ s, (Stuck, s, []).
Definition emit (ev : event) : M unit := λ s, (Ret tt, s, [ev]).
Definition log (lvl : level) (msg : string) : M unit := emit (Log lvl msg).

#[export] Instance M_ret : MRet M := @ret.
#[export] Instance M_bind : MBind M := λ A B k m, bind m k.

(** ** Files *)

(** [open(filename, 'rb')], read to the end. *)
Definition open_rb (filename : string) : M (list byte) := λ s,
  match fs_read (fs s) filename with
  | Some f => (Ret f, s, [])
  | None => (Raise (IOError filename), s, [])
  end.

(** [f.read(size)]: the block read and the rest of the file. *)
Fixpoint f_read (size : N) (f : list byte) : list byte * list byte :=
  match f with
  | [] => ([], [])
  | b :: f' =>
      if (size =? 0)%N then ([], f)
      else let '(block, rest) := f_read (N.pred size) f' in (b :: block, rest)
  end.

(** [for block in iter(partial(f.read, 1024 ** 2), ''): h.update(block)].
    Every turn reads a block that is not empty, so as many turns as the
    file has bytes are enough: [hash_blocks_fuel]. *)
Fixpoint hash_blocks (H : Hasher) (fuel : nat) (h : hstate H) (f : list byte)
    : option (hstate H) :=
  let '(block, f') := f_read (1024 ^ 2) f in
  match block with
  | [] => Some h
  | _ :: _ =>
      match fuel with
      | 0 => None
      | S fuel' => hash_blocks H fuel' (h_update H h block) f'
      end
  end.

(** The digest [filehash] computes from the bytes [f] with [H]. *)
Definition hexdigest (H : Hasher) (f : list byte) : option string :=
  h_hexdigest H <$> hash_blocks H (length f) (h_new H) f.

Definition filehash (filename hashalgo : string) : M string :=
  match hashlib_new E hashalgo with
  | None => raise (ValueError ("unsupported hash type " +:+ hashalgo))
  | Some H =>
      f ← open_rb filename;
      match hash_blocks H (length f) (h_new H) f with
      | Some h => mret (h_hexdigest H h)
      | None => stuck
      end
  end.

(** ** List objects *)

Definition set_heap (s : State) (h : list (list string)) : State :=
  mkState (world s) (fs s) h.

Definition set_world (s : State) (w : World E) : State :=
  mkState w (fs s) (heap s).

(** [l[:]]: a new list object with the elements of [l]. *)
Definition list_copy (l : loc) : M loc := λ s,
  match heap s !! l with
  | Some x => (Ret (length (heap s)), set_heap s (heap s ++ [x]), [])
  | None => (Stuck, s, [])
  end.

Definition list_len (l : loc) : M nat := λ s,
  match heap s !! l with
  | Some x => (Ret (length x), s, [])
  | None => (Stuck, s, [])
  end.

(** The truth value of a list: it is not empty. *)
Definition list_bool (l : loc) : M bool := λ s,
  match heap s !! l with
  | Some x => (Ret (bool_decide (x ≠ [])), s, [])
  | None => (Stuck, s, [])
  end.

(** [l.pop()]: removes and returns the last element. *)
Definition list_pop (l : loc) : M string := λ s,
  match heap s !! l with
  | Some x =>
      match last x with
      | Some a => (Ret a, set_heap s (<[l := removelast x]> (heap s)), [])
      | None => (Raise (IndexError "pop from empty list"), s, [])
      end
  | None => (Stuck, s, [])
  end.

(** [x[i], x[j] = x[j], x[i]] *)
Definition swap (x : list string) (i j : nat) : list string :=
  match x !! i, x !! j with
  | Some xi, Some xj => <[j := xi]> (<[i := xj]> x)
  | _, _ => x
  end.

(** The loop of [random.shuffle] from index [i] down to 1:
    [for i in reversed(xrange(1, len(x))): j = int(random() * (i+1));
     x[i], x[j] = x[j], x[i]]. *)
Fixpoint shuffle_from (i : nat) (x : list string) (w : World E)
    : list string * World E :=
  match i with
  | 0 => (x, w)
  | S i' =>
      let '(r, w') := random_below E w (i + 1) in
      shuffle_from i' (swap x i (r `mod` (i + 1))) w'
  end.

(** [random.shuffle(l)], in place. *)
Definition random_shuffle (l : loc) : M unit := λ s,
  match heap s !! l with
  | Some x =>
      let '(x', w') := shuffle_from (length x - 1) x (world s) in
      (Ret tt, mkState w' (fs s) (<[l := x']> (heap s)), [])
  | None => (Stuck, s, [])
  end.

(** ** HTTP *)

Definition http_result (res : exn + Response) : Res Response :=
  match res with
  | inr response => Ret response
  | inl e => Raise e
  end.

(** [requests.post(url, auth=.., files=.., data=.., verify=..)], called
    from [_post_file host .. hashalgo blobhash]. *)
Definition post (host hashalgo blobhash : string) (req : PostRequest) : M Response := λ s,
  let '(res, w) := requests_post E (world s) req in
  (http_result res, set_world s w, [Post host hashalgo blobhash req res]).

(** [requests.head(blob_url)] *)
Definition head (blob_url : string) : M Response := λ s,
  let '(res, w) := requests_head E (world s) blob_url in
  (http_result res, set_world s w, [Head blob_url res]).

Definition _post_file (host : string) (auth : string * string)
    (filename branch hashalgo blobhash : string) : M Response :=
  let url := urljoin E host ("/blobs/" +:+ hashalgo +:+ "/" +:+ blobhash) in
  blob ← open_rb filename;
  log DEBUG ("Posting file to " +:+ url +:+ " ...");;
  response ← post host hashalgo blobhash
    {| url := url; auth := auth; files := [("blob", blob)];
       data := [("branch", branch)]; verify := cert_where E |};
  (if bool_decide (status_code response ≠ 202%Z) then
     let err_msg := default "Something went wrong on blobber!"
                            (headers response !! "x-blobber-msg") in
     log WARNING err_msg
   else mret tt);;
  mret response.

(** ** The upload loop *)

(** [while n <= attempts and host_pool: ...], with the result it leaves in
    [file_uploaded].  Each turn pops a host, so [fuel] turns are enough
    for a pool of [fuel] hosts. *)
Fixpoint upload_loop (fuel : nat) (host_pool : loc) (filename branch : string)
    (auth : string * string) (hashalgo blobhash : string) (attempts n : Z)
    : M UploadOutcome :=
  go ← (if bool_decide (n ≤ attempts)%Z then list_bool host_pool else mret false);
  if go : bool then
    match fuel with
    | 0 => stuck
    | S fuel' =>
        host ← list_pop host_pool;
        log INFO ("Picked up " +:+ host +:+ " host after shuffling.");;
        log INFO ("POST call the file - attempt #" +:+ pretty n +:+ ".");;
        resp ← _post_file host auth filename branch hashalgo blobhash;
        let ret_code := status_code resp in
        if bool_decide (ret_code = 202%Z) then
          match headers resp !! "x-blob-url" with
          | None | Some "" =>
              log WARNING "Blob resource URL not found in response.";;
              mret Failed
          | Some blob_url =>
              ret_ ← head blob_url;
              if ok ret_ then
                log INFO ("Uploaded " +:+ filename +:+ " to " +:+ blob_url);;
                mret (Succeeded blob_url)
              else
                log WARNING ("Uploaded file on blobserver but failed to find it "
                             +:+ "to Amazon S3.");;
                mret Failed
          end
        else if bool_decide (ret_code = 403%Z) || bool_decide (ret_code = 401%Z) then
          mret Failed
        else
          log WARNING "POST call failed. Trying again ...";;
          upload_loop fuel' host_pool filename branch auth hashalgo blobhash
                      attempts (n + 1)%Z
    end
  else mret Failed.

Definition upload_file (hosts : loc) (filename branch : string)
    (auth : string * string) (hashalgo : string) (blobhash : option string)
    (attempts : Z) : M UploadOutcome :=
  blobhash ← match blobhash with
             | None => filehash filename hashalgo
             | Some h => mret h
             end;
  log INFO ("Try to upload " +:+ filename +:+ " ...");;
  host_pool ← list_copy hosts;
  random_shuffle host_pool;;
  fuel ← list_len host_pool;            (* of the model: a turn per host *)
  outcome ← upload_loop fuel host_pool filename branch auth hashalgo blobhash
                        attempts 1%Z;
  (if file_uploaded outcome then mret tt
   else log WARNING ("Uploading " +:+ filename +:+ " file failed!"));;
  mret outcome.

(** ** Directories *)

(** [os.path.join(a, b)] ([posixpath]) *)
Definition os_path_join (a b : string) : string :=
  if String.prefix "/" b then b
  else if bool_decide (a = "") || bool_decide (String.substring (String.length a - 1) 1 a = "/")
       then a +:+ b
       else a +:+ "/" +:+ b.

Definition os_listdir (dirname : string) : M (list string) := λ s,
  match fs_listdir (fs s) dirname with
  | Some entries => (Ret entries, s, [])
  | None => (Raise (OSError dirname), s, [])
  end.

Definition os_path_isfile (path : string) : M bool := λ s,
  (Ret (fs_isfile (fs s) path), s, []).

(** [[f for f in l if cond(f)]] *)
Fixpoint list_if (cond : string → M bool) (l : list string) : M (list string) :=
  match l with
  | [] => mret []
  | f :: l' =>
      c ← cond f;
      fs' ← list_if cond l';
      mret (if c : bool then f :: fs' else fs')
  end.

(** [for f in l: body(f)] *)
Fixpoint for_each (l : list string) (body : string → M unit) : M unit :=
  match l with
  | [] => mret tt
  | f :: l' => body f;; for_each l' body
  end.

(** The defaults of [upload_file]'s keyword arguments. *)
Definition default_hashalgo : string := "sha512".
Definition default_attempts : Z := 10.

Definition upload_dir (hosts : loc) (dirname branch : string)
    (auth : string * string) (hashalgo : string) : M unit :=
  log INFO "Open directory for files ...";;
  entries ← os_listdir dirname;
  dir_files ← list_if (λ f, os_path_isfile (os_path_join dirname f)) entries;
  log DEBUG "Go through all files in directory";;
  for_each dir_files (λ f,
    let filename := os_path_join dirname f in
    upload_file hosts filename branch auth default_hashalgo None default_attempts;;
    mret tt);;
  log INFO "Iteration through files over.".

End Blobberc.

Arguments mkState {E} _ _ _.
Arguments world {E} _.
Arguments fs {E} _.
Arguments heap {E} _.
Arguments result {E A} _.
Arguments final {E A} _.
Arguments trace {E A} _.

(** ** What a trace shows *)

(** One POST attempt: the host it went to, the algorithm and digest in
    its URL, the request and what came back. *)
Record Attempt := mkAttempt {
  at_host : string;
  at_hashalgo : string;
  at_blobhash : string;
  at_request : PostRequest;
  at_result : exn + Response
}.

Definition posts (t : list event) : list Attempt :=
  omap (λ ev, match ev with
              | Post host hashalgo blobhash req res =>
                  Some (mkAttempt host hashalgo blobhash req res)
              | _ => None
              end) t.

Definition heads (t : list event) : list (string * (exn + Response)) :=
  omap (λ ev, match ev with
              | Head blob_url res => Some (blob_url, res)
              | _ => None
              end) t.

(** The hosts contacted, in the order of the attempts. *)
Definition contacted (t : list event) : list string := at_host <$> posts t.

(** The first record [upload_file] logs, once its digest is known. *)
Definition upload_started (filename : string) : event :=
  Log INFO ("Try to upload " +:+ filename +:+ " ...").

Definition is_upload_start (ev : event) : bool :=
  match ev with
  | Log INFO msg => String.prefix "Try to upload " msg
  | _ => false
  end.

(** The upload sequences a trace shows, in order. *)
Definition upload_starts (t : list event) : list event :=
  filter (λ ev, is_upload_start ev) t.

(** The classes of a POST status, as the loop tells them apart. *)
Definition accepted (code : Z) : bool := bool_decide (code = 202%Z).
Definition forbidden (code : Z) : bool :=
  bool_decide (code = 403%Z) || bool_decide (code = 401%Z).
Definition transient (code : Z) : bool := negb (accepted code) && negb (forbidden code).

Definition status (a : Attempt) : option Z :=
  match at_result a with
  | inr resp => Some (status_code resp)
  | inl _ => None
  end.

(** The attempt came back with a status outside 202, 401 and 403. *)
Definition retried (a : Attempt) : bool :=
  match status a with
  | Some code => transient code
  | None => false
  end.

(** A successful (2xx) answer to HEAD. *)
Definition is_2xx (res : exn + Response) : bool :=
  match res with
  | inr ret_ => bool_decide (200 ≤ status_code ret_)%Z && bool_decide (status_code ret_ < 300)%Z
  | inl _ => false
  end.

(** ** The runs of the loop

    [loop_run raises content hashalgo blobhash attempts n pool r ps hs]:
    from the counter [n] and the pool [pool], the loop can end with the
    result [r] after the POST attempts [ps] and the HEAD requests [hs].
    [content] is what [open(filename, 'rb')] gives and [raises e] says
    that [requests] can raise [e].  One constructor per way through the
    body of the loop. *)
Inductive loop_run (raises : exn → Prop) (content : option (list byte))
    (hashalgo blobhash : string) (attempts : Z)
    : Z → list string → Res UploadOutcome → list Attempt
      → list (string * (exn + Response)) → Prop :=
  | run_exit n pool :
      ¬ ((n ≤ attempts)%Z ∧ pool ≠ []) →
      loop_run raises content hashalgo blobhash attempts n pool (Ret Failed) [] []
  | run_open_raise n pool host filename :
      (n ≤ attempts)%Z →
      content = None →
      loop_run raises content hashalgo blobhash attempts n (pool ++ [host])
        (Raise (IOError filename)) [] []
  | run_post_raise n pool host req e :
      (n ≤ attempts)%Z →
      raises e →
      loop_run raises content hashalgo blobhash attempts n (pool ++ [host]) (Raise e)
        [mkAttempt host hashalgo blobhash req (inl e)] []
  | run_no_url n pool host req resp :
      (n ≤ attempts)%Z →
      status_code resp = 202%Z →
      headers resp !! "x-blob-url" = None ∨ headers resp !! "x-blob-url" = Some "" →
      loop_run raises content hashalgo blobhash attempts n (pool ++ [host]) (Ret Failed)
        [mkAttempt host hashalgo blobhash req (inr resp)] []
  | run_head_raise n pool host req resp blob_url e :
      (n ≤ attempts)%Z →
      status_code resp = 202%Z →
      headers resp !! "x-blob-url" = Some blob_url →
      blob_url ≠ "" →
      raises e →
      loop_run raises content hashalgo blobhash attempts n (pool ++ [host]) (Raise e)
        [mkAttempt host hashalgo blobhash req (inr resp)] [(blob_url, inl e)]
  | run_head n pool host req resp blob_url ret_ :
      (n ≤ attempts)%Z →
      status_code resp = 202%Z →
      headers resp !! "x-blob-url" = Some blob_url →
      blob_url ≠ "" →
      loop_run raises content hashalgo blobhash attempts n (pool ++ [host])
        (Ret (if ok ret_ then Succeeded blob_url else Failed))
        [mkAttempt host hashalgo blobhash req (inr resp)] [(blob_url, inr ret_)]
  | run_forbidden n pool host req resp :
      (n ≤ attempts)%Z →
      forbidden (status_code resp) = true →
      loop_run raises content hashalgo blobhash attempts n (pool ++ [host]) (Ret Failed)
        [mkAttempt host hashalgo blobhash req (inr resp)] []
  | run_retry n pool host req resp r ps hs :
      (n ≤ attempts)%Z →
      transient (status_code resp) = true →
      loop_run raises content hashalgo blobhash attempts (n + 1) pool r ps hs →
      loop_run raises content hashalgo blobhash attempts n (pool ++ [host]) r
        (mkAttempt host hashalgo blobhash req (inr resp) :: ps) hs.

(** [requests.post] or [requests.head] can raise [e]. *)
Definition net_raises (E : Env) (e : exn) : Prop :=
  (∃ w req, (requests_post E w req).1 = inl e)
  ∨ (∃ w blob_url, (requests_head E w blob_url).1 = inl e).

(** The digest the attempts of [upload_file] carry: the [blobhash]
    argument, or what [filehash] returns when it is [None]. *)
Definition hash_resolves {E} (s : State E) (filename hashalgo : string)
    (blobhash : option string) (digest : string) : Prop :=
  match blobhash with
  | Some h => h = digest
  | None => filehash E filename hashalgo s = (Ret digest, s, [])
  end.

(** What [upload_file] needs to have a digest: one given as [blobhash],
    or a file [open] can read and an algorithm [hashlib] knows. *)
Definition digest_available {E} (s : State E) (filename hashalgo : string)
    (blobhash : option string) : Prop :=
  blobhash = None →
  is_Some (fs_read (fs s) filename) ∧ is_Some (hashlib_new E hashalgo).

(** What [upload_file] needs to get through [_post_file] as well: the
    file can be opened. *)
Definition uploadable {E} (s : State E) (filename hashalgo : string)
    (blobhash : option string) : Prop :=
  is_Some (fs_read (fs s) filename)
  ∧ digest_available s filename hashalgo blobhash.

(** The immediate regular-file entries of a directory, as [upload_dir]
    selects them from the listing [entries]. *)
Definition regular_files (fsys : FileSystem) (dirname : string)
    (entries : list string) : list string :=
  filter (λ f, fs_isfile fsys (os_path_join dirname f) = true) entries.

(** The body of the [for] loop of [upload_dir]. *)
Definition upload_entry (E : Env) (hosts : loc) (dirname branch : string)
    (auth : string * string) (f : string) : M E unit :=
  upload_file E hosts (os_path_join dirname f) branch auth default_hashalgo None
    default_attempts;; mret tt.

(** A batch as the calls it is made of: for each of [files] in turn, the
    run of [upload_file] with ['sha512'], no [blobhash] and a budget of 10
    from the state the call before left, up to the first call that does
    not return.  Each call is listed with the name of its file. *)
Fixpoint default_uploads (E : Env) (hosts : loc) (dirname branch : string)
    (auth : string * string) (files : list string) (s : State E)
    : list (string * (Res UploadOutcome * State E * list event)) :=
  match files with
  | [] => []
  | f :: files' =>
      let run := upload_file E hosts (os_path_join dirname f) branch auth "sha512" None 10 s in
      (f, run) :: match result run with
                  | Ret _ => default_uploads E hosts dirname branch auth files' (final run)
                  | _ => []
                  end
  end.

(** ** The rest of the program: requests, blocks and [main] *)

(** The request [_post_file] builds for [host] and the bytes [blob] of
    the file. *)
Definition request_for (E : Env) (host : string) (auth : string * string)
    (branch hashalgo blobhash : string) (blob : list byte) : PostRequest :=
  {| url := urljoin E host ("/blobs/" +:+ hashalgo +:+ "/" +:+ blobhash);
     auth := auth;
     files := [("blob", blob)];
     data := [("branch", branch)];
     verify := cert_where E |}.

(** The blocks the loop of [filehash] gives to [h.update], in order:
    [iter(partial(f.read, 1024 ** 2), '')]. *)
Fixpoint read_blocks (fuel : nat) (f : list byte) : list (list byte) :=
  let '(block, f') := f_read (1024 ^ 2) f in
  match block with
  | [] => []
  | _ :: _ =>
      match fuel with
      | 0 => []
      | S fuel' => block :: read_blocks fuel' f'
      end
  end.

(** A hash object for which hashing in pieces is hashing the whole, as
    [hashlib] documents for [update]. *)
Definition streaming (H : Hasher) : Prop :=
  ∀ h a b, h_update H (h_update H h a) b = h_update H h (a ++ b).

(** The last record of a failed upload and of a successful one. *)
Definition upload_failed (filename : string) : event :=
  Log WARNING ("Uploading " +:+ filename +:+ " file failed!").

Definition upload_succeeded (filename blob_url : string) : event :=
  Log INFO ("Uploaded " +:+ filename +:+ " to " +:+ blob_url).

(** The command line as [docopt] returns it: [--url] is a list object,
    [--verbose] and [--dir] are flags. *)
Record Args := mkArgs {
  arg_url : loc;
  arg_auth : string;
  arg_branch : string;
  arg_verbose : bool;
  arg_dir : bool;
  arg_FILE : string
}.

(** How [main] ends: as the upload it calls ends, with the [KeyError]
    of a credential the auth file does not define, or with what
    [execfile] raises. *)
Inductive MainResult :=
  | Exit (r : Res unit)
  | KeyError (key : string)
  | ExecfileError (what : string).

(** The level [main] gives to [logging.basicConfig]. *)
Definition loglevel (args : Args) : level :=
  if arg_verbose args then DEBUG else INFO.

(** [main].  [execfile path] is the dictionary of the names the auth
    file defines, or what executing it raises; [isdir] is
    [os.path.isdir].  The configuration of [logging] decides which
    records are shown, not which are logged, and is not in the trace. *)
Definition main (E : Env) (execfile : string → string + gmap string string)
    (isdir : string → bool) (args : Args) (s : State E)
    : MainResult * State E * list event :=
  match execfile (arg_auth args) with
  | inl what => (ExecfileError what, s, [])
  | inr credentials =>
      match credentials !! "blobber_username" with
      | None => (KeyError "blobber_username", s, [])
      | Some username =>
          match credentials !! "blobber_password" with
          | None => (KeyError "blobber_password", s, [])
          | Some password =>
              let auth := (username, password) in
              if arg_dir args then
                if isdir (arg_FILE args) then
                  let '(r, s', t) :=
                    upload_dir E (arg_url args) (arg_FILE args) (arg_branch args) auth
                      default_hashalgo s in
                  (Exit r, s', t)
                else (Exit (Ret tt), s, [])
              else
                if fs_isfile (fs s) (arg_FILE args) then
                  let '(r, s', t) :=
                    upload_file E (arg_url args) (arg_FILE args) (arg_branch args) auth
                      default_hashalgo None default_attempts s in
                  (Exit match r with
                        | Ret _ => Ret tt
                        | Raise e => Raise e
                        | Stuck => Stuck
                        end, s', t)
                else (Exit (Ret tt), s, [])
          end
      end
  end.

(** ** A scripted environment

    Servers that answer from a script, a generator that draws from a list,
    and a small disk: the concrete runs below use them. *)
Module Scenario.

Record script := mkScript {
  post_answers : list (exn + Response);
  head_answers : list (exn + Response);
  draws : list nat
}.

(** A stand-in for a digest: the number of bytes hashed, in decimal. *)
Definition byte_count : Hasher :=
  {| hstate := N;
     h_new := 0%N;
     h_update := λ h block, (h + N.of_nat (length block))%N;
     h_hexdigest := λ h, pretty h |}.

Definition status_only (code : Z) : exn + Response := inr (mkResponse code ∅).

(** POST answers 500 and HEAD answers 404 once the script is used up. *)
Definition env : Env :=
  {| World := script;
     requests_post := λ w _,
       match post_answers w with
       | [] => (status_only 500, w)
       | r :: rs => (r, mkScript rs (head_answers w) (draws w))
       end;
     requests_head := λ w _,
       match head_answers w with
       | [] => (status_only 404, w)
       | r :: rs => (r, mkScript (post_answers w) rs (draws w))
       end;
     random_below := λ w _,
       match draws w with
       | [] => (0, w)
       | r :: rs => (r, mkScript (post_answers w) (head_answers w) rs)
       end;
     hashlib_new := λ a, if bool_decide (a = "sha512") then Some byte_count else None;
     urljoin := λ host path, host +:+ path;
     cert_where := "cacert.pem" |}.

(** [build.log] and the directory [logs] with the files [a], [b], [c] and
    the subdirectory [sub]. *)
Definition disk : FileSystem :=
  {| fs_read := λ p,
       if bool_decide (p = "build.log") then Some ["a"; "b"]%byte
       else if bool_decide (p = "logs/a") then Some ["a"; "b"]%byte
       else if bool_decide (p = "logs/b") then Some ["a"; "b"; "c"]%byte
       else if bool_decide (p = "logs/c") then Some []
       else None;
     fs_isfile := λ p, bool_decide (p ∈ ["build.log"; "logs/a"; "logs/b"; "logs/c"]);
     fs_listdir := λ p,
       if bool_decide (p = "logs") then Some ["a"; "b"; "sub"; "c"] else None |}.

(** The caller's [hosts] list is the object at location 0. *)
Definition start (w : script) (hosts : list string) : State env :=
  @mkState env w disk [hosts].

Definition three_hosts : list string := ["H1"; "H2"; "H3"].

Definition credentials : string * string := ("user", "secret").

Definition accepted_at (blob_url : string) : exn + Response :=
  inr (mkResponse 202 {[ "x-blob-url" := blob_url ]}).

Definition refused : exn + Response := inl (RequestException "connection refused").

(** The attempt [_post_file] makes for a file of two bytes. *)
Definition attempt (host : string) (res : exn + Response) : Attempt :=
  mkAttempt host "sha512" "2"
    {| url := host +:+ "/blobs/sha512/2";
       auth := credentials;
       files := [("blob", ["a"; "b"]%byte)];
       data := [("branch", "try")];
       verify := "cacert.pem" |}
    res.

(** Scripts: every POST answered 500; the first answered 401; the second
    answered 202, with and without [x-blob-url]; the first refused. *)
Definition all_500 : script := mkScript [] [] [].
Definition first_forbidden : script := mkScript [status_only 401] [] [].
Definition second_accepts : script :=
  mkScript [status_only 500; accepted_at "https://cdn/x"] [status_only 200] [0; 1].
Definition second_accepts_without_url : script :=
  mkScript [status_only 500; status_only 202] [] [0; 1].
Definition first_refused : script := mkScript [refused] [] [].

(** [upload_file] of [build.log] with a budget, and [upload_dir] of
    [logs], from the state [start]. *)
Definition upload (w : script) (hosts : list string) (attempts : Z)
    : Res UploadOutcome * State env * list event :=
  upload_file env 0 "build.log" "try" credentials "sha512" None attempts (start w hosts).

Definition upload_logs (w : script) (hashalgo : string)
    : Res unit * State env * list event :=
  upload_dir env 0 "logs" "try" credentials hashalgo (start w three_hosts).


(** For [main]: the auth files [auth.py], with both credentials, and
    [half.py], with the user name only; the directories; a command
    line for the three hosts. *)
Definition auth_files (path : string) : string + gmap string string :=
  if bool_decide (path = "auth.py") then
    inr {[ "blobber_username" := "user"; "blobber_password" := "secret" ]}
  else if bool_decide (path = "half.py") then
    inr {[ "blobber_username" := "user" ]}
  else inl "IOError".

Definition is_directory (path : string) : bool :=
  bool_decide (path ∈ ["logs"; "logs/sub"]).

Definition command_line (auth_file : string) (dir : bool) (FILE : string) : Args :=
  {| arg_url := 0; arg_auth := auth_file; arg_branch := "try";
     arg_verbose := false; arg_dir := dir; arg_FILE := FILE |}.

(** A disk on which [dirs] holds the subdirectories [x] and [y] only. *)
Definition bare_disk : FileSystem :=
  {| fs_read := λ _, None;
     fs_isfile := λ _, false;
     fs_listdir := λ p, if bool_decide (p = "dirs") then Some ["x"; "y"] else None |}.

End Scenario.

(** * Proofs *)

Section Proofs.
Context (E : Env).
Implicit Types (s : State E) (t : list event).

(** ** Traces *)

Lemma posts_app t1 t2 : posts (t1 ++ t2) = posts t1 ++ posts t2.
Proof. apply omap_app. Qed.
Lemma heads_app t1 t2 : heads (t1 ++ t2) = heads t1 ++ heads t2.
Proof. apply omap_app. Qed.
Lemma upload_starts_app t1 t2 :
  upload_starts (t1 ++ t2) = upload_starts t1 ++ upload_starts t2.
Proof. apply filter_app. Qed.

Lemma is_upload_start_started filename : is_upload_start (upload_started filename) = true.
Proof.
  unfold upload_started, is_upload_start. simpl. by destruct filename.
Qed.

Lemma upload_starts_started filename :
  upload_starts [upload_started filename] = [upload_started filename].
Proof.
  unfold upload_starts. rewrite filter_cons_True; [done|].
  rewrite is_upload_start_started. done.
Qed.

Lemma list_pop_snoc pl pool host s :
  heap s !! pl = Some (pool ++ [host]) →
  list_pop E pl s = (Ret host, set_heap E s (<[pl := pool]> (heap s)), []).
Proof.
  intros Hpl. unfold list_pop. rewrite Hpl, last_snoc, removelast_last. done.
Qed.

(** ** The loop and its runs *)

Ltac unfold_M := unfold mbind, M_bind, bind, mret, M_ret, ret, log, emit, stuck, raise.

Lemma upload_loop_exit fuel pl filename branch auth hashalgo blobhash attempts n s pool :
  heap s !! pl = Some pool →
  ¬ ((n ≤ attempts)%Z ∧ pool ≠ []) →
  upload_loop E fuel pl filename branch auth hashalgo blobhash attempts n s
  = (Ret Failed, s, []).
Proof.
  intros Hpl Hno. destruct fuel.
  all: cbn [upload_loop]; unfold_M.
  all: case_bool_decide; [unfold list_bool; rewrite Hpl; case_bool_decide; [tauto|done] | done].
Qed.

(** With fuel for every host of the pool, the loop ends in one of the runs
    of [loop_run]; it logs no start of an upload, leaves the file system
    alone and writes to no list but the pool. *)
Lemma upload_loop_run fuel pl filename branch auth hashalgo blobhash attempts n s pool
    r s' t :
  heap s !! pl = Some pool →
  length pool ≤ fuel →
  upload_loop E fuel pl filename branch auth hashalgo blobhash attempts n s = (r, s', t) →
  loop_run (net_raises E) (fs_read (fs s) filename) hashalgo blobhash attempts n pool r
    (posts t) (heads t)
  ∧ upload_starts t = []
  ∧ fs s' = fs s
  ∧ ∃ rest, heap s' = <[pl := rest]> (heap s).
Proof.
  revert n s pool r s' t. induction fuel as [|fuel IH]; intros n s pool r s' t Hpl Hlen.
  - destruct pool; [|simpl in Hlen; lia].
    rewrite (upload_loop_exit _ _ _ _ _ _ _ _ _ _ []) by (done || tauto).
    intros [= <- <- <-]. split_and!; try done.
    + constructor. tauto.
    + exists []. by rewrite list_insert_id.
  - destruct (decide ((n ≤ attempts)%Z ∧ pool ≠ [])) as [[Hn Hne]|Hno]; last first.
    { rewrite (upload_loop_exit _ _ _ _ _ _ _ _ _ _ pool) by done.
      intros [= <- <- <-]. split_and!; try done.
      + by constructor.
      + exists pool. by rewrite list_insert_id. }
    destruct (last pool) as [host|] eqn:Hlast; [|by apply last_None in Hlast].
    apply last_Some in Hlast as [pool' ->].
    cbn [upload_loop]. unfold_M.
    rewrite bool_decide_true by done.
    unfold list_bool at 1. rewrite Hpl. rewrite bool_decide_true by done.
    rewrite (list_pop_snoc _ pool' host) by done.
    unfold _post_file, open_rb. unfold_M. cbn [set_heap fs app].
    destruct (fs_read (fs s) filename) as [blob|] eqn:Hread.
    2:{ intros [= <- <- <-]. split_and!; [|done|done|by eexists].
        by apply run_open_raise. }
    unfold post at 1. cbn [world set_heap].
    destruct (requests_post E (world s) _) as [[e|resp] w] eqn:Hpost; cbn [http_result].
    { intros [= <- <- <-]. split_and!; [|done|done|by eexists].
      apply run_post_raise; [done|]. left. eexists _, _. by rewrite Hpost. }
    unfold accepted, forbidden, transient in *.
    destruct (decide (status_code resp = 202%Z)) as [H202|H202].
    { rewrite (bool_decide_false (status_code resp ≠ 202%Z)) by tauto.
      rewrite (bool_decide_true (status_code resp = 202%Z)) by done.
      destruct (headers resp !! "x-blob-url") as [[|c blob_url]|] eqn:Hurl.
      + intros [= <- <- <-]. split_and!; [|done|done|by eexists].
        apply run_no_url; auto.
      + unfold head at 1. cbn [world set_world].
        destruct (requests_head E w _) as [[e|ret_] w'] eqn:Hhead; cbn [http_result].
        * intros [= <- <- <-]. split_and!; [|done|done|by eexists].
          apply run_head_raise; [done..|]. right. eexists _, _. by rewrite Hhead.
        * pose proof (λ req, run_head (net_raises E) (Some blob) hashalgo blobhash attempts
            n pool' host
            req resp _ ret_ Hn H202 Hurl ltac:(done)) as Hrun.
          destruct (ok ret_); intros [= <- <- <-].
          all: split_and!; [|done|done|by eexists].
          all: apply Hrun.
      + intros [= <- <- <-]. split_and!; [|done|done|by eexists].
        apply run_no_url; auto. }
    rewrite (bool_decide_true (status_code resp ≠ 202%Z)) by done.
    rewrite (bool_decide_false (status_code resp = 202%Z)) by done.
    cbn [app].
    destruct (bool_decide (status_code resp = 403%Z) || bool_decide (status_code resp = 401%Z))
      eqn:Hforb.
    { intros [= <- <- <-]. split_and!; [|done|done|by eexists].
      by apply run_forbidden. }
    destruct (upload_loop E fuel _ _ _ _ _ _ _ _ _) as [[r1 s1] t1] eqn:Hloop.
    intros [= <- <- <-].
    apply IH with (pool := pool') in Hloop as (Hrun & Hst & Hfs & rest & Hheap).
    + cbn [fs set_world set_heap heap] in *. rewrite Hread in Hrun. split_and!.
      * apply (run_retry _ _ _ _ _ _ _ _ _ _ _ (posts t1)); [done| |done].
        unfold transient, accepted, forbidden. rewrite Hforb.
        by rewrite bool_decide_false.
      * exact Hst.
      * done.
      * exists rest. rewrite Hheap. by rewrite list_insert_insert_eq.
    + simpl. apply list_lookup_insert_eq. by eapply lookup_lt_Some.
    + rewrite length_app in Hlen. simpl in Hlen. lia.
Qed.

(** ** Hashing and shuffling *)

Lemma f_read_cons size b f :
  size ≠ 0%N →
  ∃ block rest, f_read size (b :: f) = (b :: block, rest) ∧ length rest ≤ length f.
Proof.
  revert size b. induction f as [|b' f IH]; intros size b Hsize; simpl.
  - destruct (N.eqb_spec size 0); [done|]. by eexists _, _.
  - destruct (N.eqb_spec size 0); [done|].
    destruct (N.eqb_spec (N.pred size) 0) as [Hp|Hp].
    + eexists _, _. split; [done|]. simpl. lia.
    + destruct (IH (N.pred size) b' Hp) as (block & rest & Heq & Hlen).
      simpl in Heq. destruct (N.eqb_spec (N.pred size) 0); [done|].
      destruct (f_read (N.pred (N.pred size)) f) as [block' rest'].
      simplify_eq. eexists _, _. split; [done|]. lia.
Qed.

(** The fuel [filehash] gives to [hash_blocks] is enough. *)
Lemma hash_blocks_fuel H fuel h f :
  length f ≤ fuel → is_Some (hash_blocks H fuel h f).
Proof.
  revert h f. induction fuel as [|fuel IH]; intros h [|b f] Hlen; simpl in Hlen; try lia.
  - by eexists.
  - by eexists.
  - destruct (f_read_cons (1024 ^ 2) b f) as (block & rest & Heq & Hrest); [done|].
    cbn [hash_blocks]. rewrite Heq. apply IH. lia.
Qed.

Lemma swap_perm x i j : swap x i j ≡ₚ x.
Proof.
  unfold swap. destruct (x !! i) eqn:Hi; [|done]. destruct (x !! j) eqn:Hj; [|done].
  by apply Permutation_insert_swap.
Qed.

Lemma shuffle_from_perm i x w : (shuffle_from E i x w).1 ≡ₚ x.
Proof.
  revert x w. induction i as [|i IH]; intros x w; [done|].
  cbn [shuffle_from]. destruct (random_below E w (S i + 1)) as [r w'].
  rewrite IH. apply swap_perm.
Qed.

Lemma filehash_run filename hashalgo s :
  filehash E filename hashalgo s =
  match hashlib_new E hashalgo with
  | None => (Raise (ValueError ("unsupported hash type " +:+ hashalgo)), s, [])
  | Some H =>
      match fs_read (fs s) filename with
      | None => (Raise (IOError filename), s, [])
      | Some f => (from_option Ret Stuck (hexdigest H f), s, [])
      end
  end.
Proof.
  unfold filehash, hexdigest. destruct (hashlib_new E hashalgo) as [H|]; [|done].
  unfold open_rb. unfold_M. destruct (fs_read (fs s) filename) as [f|]; [|done].
  by destruct (hash_blocks H (length f) (h_new H) f).
Qed.

Lemma hexdigest_is_Some H f : is_Some (hexdigest H f).
Proof.
  unfold hexdigest. destruct (hash_blocks_fuel H (length f) (h_new H) f) as [h ->]; [done|].
  by eexists.
Qed.

Lemma filehash_cases filename hashalgo s :
  (∃ e, filehash E filename hashalgo s = (Raise e, s, []))
  ∨ (∃ digest, filehash E filename hashalgo s = (Ret digest, s, [])).
Proof.
  rewrite filehash_run. destruct (hashlib_new E hashalgo) as [H|]; [|by left; eexists].
  destruct (fs_read (fs s) filename) as [f|]; [|by left; eexists].
  destruct (hexdigest_is_Some H f) as [d ->]. right. by eexists.
Qed.

(** ** One call of [upload_file]

    Either [filehash] raises and nothing else happens, or the loop runs on
    a permutation of [hosts] held in a new list object. *)
Lemma upload_file_run hosts hs filename branch auth hashalgo blobhash attempts s :
  heap s !! hosts = Some hs →
  let run := upload_file E hosts filename branch auth hashalgo blobhash attempts s in
  fs (final run) = fs s
  ∧ heap s `prefix_of` heap (final run)
  ∧ ((blobhash = None
      ∧ ∃ e, filehash E filename hashalgo s = (Raise e, s, [])
             ∧ result run = Raise e ∧ trace run = [])
     ∨ (∃ digest pool,
          hash_resolves s filename hashalgo blobhash digest
          ∧ pool ≡ₚ hs
          ∧ loop_run (net_raises E) (fs_read (fs s) filename) hashalgo digest attempts 1 pool
              (result run) (posts (trace run)) (heads (trace run))
          ∧ upload_starts (trace run) = [upload_started filename])).
Proof.
  intros Hhosts run.
  assert (Hcase : (blobhash = None ∧ ∃ e, filehash E filename hashalgo s = (Raise e, s, []))
                  ∨ ∃ digest, hash_resolves s filename hashalgo blobhash digest).
  { destruct blobhash as [h|]; [right; by exists h|].
    destruct (filehash_cases filename hashalgo s) as [[e He]|[d Hd]]; [left|right]; eauto. }
  destruct Hcase as [[-> [e He]]|[digest Hres]].
  { subst run. unfold upload_file. unfold_M. rewrite He.
    split_and!; [done|done|]. left. split; [done|]. by exists e. }
  assert (Hfirst : (match blobhash with
                    | None => filehash E filename hashalgo
                    | Some h => mret h
                    end) s = (Ret digest, s, [])).
  { destruct blobhash; [|done]. unfold hash_resolves in Hres. by subst. }
  unfold mret, M_ret, ret in Hfirst.
  subst run. unfold upload_file. unfold_M. rewrite Hfirst.
  unfold list_copy. rewrite Hhosts.
  unfold random_shuffle. cbn [heap set_heap world fs].
  rewrite list_lookup_middle by done.
  pose proof (shuffle_from_perm (length hs - 1) hs (world s)) as Hperm.
  destruct (shuffle_from E (length hs - 1) hs (world s)) as [pool w']. simpl in Hperm.
  rewrite insert_app_r_alt, Nat.sub_diag by done. cbn [insert list_insert].
  unfold list_len. cbn [heap]. rewrite list_lookup_middle by done.
  destruct (upload_loop E _ _ _ _ _ _ _ _ _ _) as [[r1 s1] t1] eqn:Hloop.
  apply upload_loop_run with (pool := pool) in Hloop as (Hrun & Hst & Hfs & rest & Hheap);
    [|by apply list_lookup_middle|done].
  cbn [heap fs] in *.
  rewrite insert_app_r_alt, Nat.sub_diag in Hheap by done. cbn [insert list_insert] in Hheap.
  assert (Hobs : ∀ t2, Forall (λ ev, ∃ msg, ev = Log WARNING msg) t2 →
            let t := [Log INFO ("Try to upload " +:+ filename +:+ " ...")] ++ t1 ++ t2 in
            posts t = posts t1 ∧ heads t = heads t1 ∧ upload_starts t = [upload_started filename]).
  { intros t2 Ht2 t.
    assert (posts t2 = [] ∧ heads t2 = [] ∧ upload_starts t2 = []) as (Hp & Hh & Hu).
    { induction Ht2 as [|ev t2 [msg ->] _ IH]; [done|]. by destruct IH as (?&?&?). }
    subst t. rewrite posts_app, heads_app, upload_starts_app.
    rewrite posts_app, heads_app, upload_starts_app, Hp, Hh, Hu, Hst, !app_nil_r.
    split_and!; [done|done|]. apply upload_starts_started. }
  match goal with |- context [final ?X] =>
    assert (∃ t2, Forall (λ ev, ∃ msg, ev = Log WARNING msg) t2
              ∧ X = (r1, s1, [Log INFO ("Try to upload " +:+ filename +:+ " ...")] ++ t1 ++ t2))
      as (t2 & Ht2 & ->)
  end.
  { destruct r1 as [outcome| |]; [|exists []; by rewrite !app_nil_r..].
    destruct (file_uploaded outcome).
    - exists []. by rewrite !app_nil_r.
    - eexists [_]. split; [by repeat econstructor|]. by rewrite !app_nil_r. }
  destruct (Hobs t2 Ht2) as (Hp & Hh & Hu).
  cbn [final result trace fst snd]. split_and!; [done|rewrite Hheap; by apply prefix_app_r|].
  right. exists digest, pool. by rewrite Hp, Hh, Hu.
Qed.

(** ** What the runs of the loop have in common *)

Section LoopRun.
Context (raises : exn → Prop) (content : option (list byte)).
Context (hashalgo blobhash : string) (attempts : Z).
Implicit Types (ps : list Attempt) (hs : list (string * (exn + Response))).

Lemma loop_run_not_stuck n pool r ps hs :
  loop_run raises content hashalgo blobhash attempts n pool r ps hs → r ≠ Stuck.
Proof. induction 1; (done || by destruct (ok _)). Qed.


Lemma loop_run_hosts n pool r ps hs :
  loop_run raises content hashalgo blobhash attempts n pool r ps hs →
  reverse (at_host <$> ps) `suffix_of` pool.
Proof.
  induction 1 as [| | | | | | |n pool host req resp r ps hs Hn Ht Hrun IH];
    try (by apply suffix_nil); try (by apply suffix_app_r).
  cbn [fmap list_fmap at_host]. rewrite reverse_cons. by apply suffix_app.
Qed.

Lemma loop_run_budget n pool r ps hs :
  loop_run raises content hashalgo blobhash attempts n pool r ps hs →
  (Z.of_nat (length ps) ≤ Z.max 0 (attempts - n + 1))%Z.
Proof. induction 1; simpl; lia. Qed.

Lemma loop_run_digest n pool r ps hs :
  loop_run raises content hashalgo blobhash attempts n pool r ps hs →
  Forall (λ a, at_hashalgo a = hashalgo ∧ at_blobhash a = blobhash) ps.
Proof. induction 1; repeat constructor; done. Qed.

Lemma transient_not_forbidden code : transient code = true → forbidden code = false.
Proof. unfold transient. by intros [_ ?%negb_true_iff]%andb_prop. Qed.

Lemma transient_not_accepted code : transient code = true → code ≠ 202%Z.
Proof.
  unfold transient, accepted. intros [H ?]%andb_prop ->.
  by rewrite bool_decide_true in H.
Qed.

Lemma forbidden_not_accepted code : forbidden code = true → code ≠ 202%Z.
Proof. unfold forbidden. intros H ->. done. Qed.

(** The three classes of a status exclude one another. *)
Ltac status_clash :=
  match goal with
  | H : transient ?c = true, H' : forbidden ?c = true |- _ =>
      apply transient_not_forbidden in H; congruence
  | H : transient ?c = true, H' : ?c = 202%Z |- _ =>
      by apply transient_not_accepted in H
  | H : forbidden ?c = true, H' : ?c = 202%Z |- _ =>
      by apply forbidden_not_accepted in H
  end.

Lemma loop_run_forbidden n pool r a ps hs code :
  loop_run raises content hashalgo blobhash attempts n pool r (a :: ps) hs →
  status a = Some code →
  forbidden code = true →
  ps = [] ∧ r = Ret Failed ∧ hs = [].
Proof.
  intros Hrun Hst Hforb. inv Hrun; cbn in Hst; simplify_eq; (done || status_clash).
Qed.

Lemma loop_run_no_url n pool r ps hs a resp :
  loop_run raises content hashalgo blobhash attempts n pool r ps hs →
  a ∈ ps →
  at_result a = inr resp →
  status_code resp = 202%Z →
  headers resp !! "x-blob-url" = None →
  r = Ret Failed ∧ hs = [] ∧ ∃ pre, ps = pre ++ [a].
Proof.
  intros Hrun Ha Hres H202 Hurl.
  induction Hrun as [| | | | | | |n pool host req resp' r ps hs Hn Ht Hrun IH];
    try (by apply elem_of_nil in Ha);
    try (apply list_elem_of_singleton in Ha as ->; cbn in Hres; simplify_eq;
         solve [ split_and!; [done|done|by exists []] | congruence | status_clash ]).
  apply elem_of_cons in Ha as [->|Ha].
  - cbn in Hres. simplify_eq. status_clash.
  - destruct (IH Ha) as (-> & -> & pre & ->). split_and!; [done|done|].
    by eexists (_ :: pre).
Qed.

Lemma is_2xx_ok ret_ : is_2xx (inr ret_) = true → ok ret_ = true.
Proof.
  unfold is_2xx, ok. intros [?%bool_decide_eq_true ?%bool_decide_eq_true]%andb_prop.
  by rewrite bool_decide_false by lia.
Qed.

Lemma loop_run_succeeded n pool r ps hs a resp blob_url res :
  loop_run raises content hashalgo blobhash attempts n pool r ps hs →
  a ∈ ps →
  at_result a = inr resp →
  status_code resp = 202%Z →
  headers resp !! "x-blob-url" = Some blob_url →
  (blob_url, res) ∈ hs →
  is_2xx res = true →
  r = Ret (Succeeded blob_url) ∧ ∃ pre, ps = pre ++ [a].
Proof.
  intros Hrun Ha Hres H202 Hurl Hhead H2xx.
  induction Hrun as [| | | | | | |n pool host req resp' r ps hs Hn Ht Hrun IH];
    try (by apply elem_of_nil in Ha); try (by apply elem_of_nil in Hhead).
  - apply list_elem_of_singleton in Ha as ->. apply list_elem_of_singleton in Hhead.
    cbn in Hres. by simplify_eq.
  - apply list_elem_of_singleton in Ha as ->. apply list_elem_of_singleton in Hhead.
    cbn in Hres. simplify_eq. rewrite is_2xx_ok by done. split; [done|by exists []].
  - apply elem_of_cons in Ha as [->|Ha].
    + cbn in Hres. simplify_eq. status_clash.
    + destruct (IH Ha Hhead) as (-> & pre & ->). split; [done|]. by eexists (_ :: pre).
Qed.

Lemma loop_run_exhausted n pool r ps hs :
  loop_run raises content hashalgo blobhash attempts n pool r ps hs →
  is_Some content →
  Forall (λ a, retried a = true) ps →
  r = Ret Failed ∧ length ps = length pool `min` Z.to_nat (attempts - n + 1).
Proof.
  intros Hrun [blob ->] Hall.
  induction Hrun as [n pool Hexit| | | | | | |n pool host req resp r ps hs Hn Ht Hrun IH];
    try done;
    try (apply Forall_cons_1 in Hall as [Hre Hall]; unfold retried in Hre; cbn in Hre;
         try done; try status_clash).
  - split; [done|]. destruct pool; [done|].
    assert (¬ (n ≤ attempts)%Z) by (intros ?; apply Hexit; done).
    cbn [length]. lia.
  - destruct (IH Hall) as [-> Hlen].
    split; [done|]. rewrite length_app. cbn [length]. lia.
Qed.
End LoopRun.

(** ** The properties of [upload_file] *)

Lemma filehash_available s filename hashalgo :
  is_Some (fs_read (fs s) filename) →
  is_Some (hashlib_new E hashalgo) →
  ∃ digest, filehash E filename hashalgo s = (Ret digest, s, []).
Proof.
  intros [f Hf] [H HH]. rewrite filehash_run, HH, Hf.
  destruct (hexdigest_is_Some H f) as [d ->]. by exists d.
Qed.

Lemma upload_file_loop_run hosts hs filename branch auth hashalgo blobhash attempts s :
  heap s !! hosts = Some hs →
  let run := upload_file E hosts filename branch auth hashalgo blobhash attempts s in
  (result run ≠ Stuck ∧ posts (trace run) = [] ∧ heads (trace run) = []
   ∧ ¬ digest_available s filename hashalgo blobhash)
  ∨ (∃ digest pool,
       hash_resolves s filename hashalgo blobhash digest
       ∧ pool ≡ₚ hs
       ∧ loop_run (net_raises E) (fs_read (fs s) filename) hashalgo digest attempts 1 pool
           (result run) (posts (trace run)) (heads (trace run))).
Proof.
  intros Hhosts run.
  destruct (upload_file_run hosts hs filename branch auth hashalgo blobhash attempts s Hhosts)
    as (_ & _ & [(-> & e & He & Hr & Ht)|(digest & pool & ? & ? & ? & _)]).
  - left. fold run in Hr, Ht. rewrite Hr, Ht. split_and!; [done..|].
    intros Hav. destruct Hav as [Hf HH]; [done|].
    destruct (filehash_available s filename hashalgo Hf HH) as [d Hd]. congruence.
  - right. by exists digest, pool.
Qed.

(** The model never gives up on a call whose [hosts] is a list: the fuel
    is enough and no location dangles. *)
Theorem upload_file_not_stuck s hosts hs filename branch auth hashalgo blobhash attempts :
  heap s !! hosts = Some hs →
  result (upload_file E hosts filename branch auth hashalgo blobhash attempts s) ≠ Stuck.
Proof.
  intros Hhosts.
  destruct (upload_file_loop_run hosts hs filename branch auth hashalgo blobhash attempts s Hhosts)
    as [(?&_)|(digest & pool & _ & _ & Hrun)]; [done|].
  by eapply loop_run_not_stuck.
Qed.


(** C1.  For a pool of [length hs] hosts and a budget of [budget] attempts,
    one call makes at most [min (length hs) budget] POST attempts.  The
    hosts contacted are drawn from the pool without replacement: as a
    multiset they are contained in [hs], so no entry of the pool is used
    twice, and when the pool names no host twice no host is tried twice. *)
Theorem upload_file_distinct_hosts s hosts hs filename branch auth hashalgo blobhash
    (budget : nat) :
  heap s !! hosts = Some hs →
  let t := trace (upload_file E hosts filename branch auth hashalgo blobhash
                    (Z.of_nat budget) s) in
  length (posts t) ≤ length hs `min` budget
  ∧ contacted t ⊆+ hs
  ∧ (NoDup hs → NoDup (contacted t)).
Proof.
  intros Hhosts t.
  assert (Hsub : contacted t ⊆+ hs ∧ length (posts t) ≤ budget) .
  { destruct (upload_file_loop_run hosts hs filename branch auth hashalgo blobhash
                (Z.of_nat budget) s Hhosts) as [(_ & Hp & _)|(digest & pool & _ & Hperm & Hrun)].
    - fold t in Hp. unfold contacted. rewrite Hp. split; [apply submseteq_nil_l|simpl; lia].
    - fold t in Hrun. split.
      + apply loop_run_hosts in Hrun as [k Hk].
        rewrite <-Hperm, Hk, <-(reverse_Permutation (contacted t)).
        by apply submseteq_inserts_l.
      + apply loop_run_budget in Hrun. lia. }
  destruct Hsub as [Hsub Hlen]. split_and!; [|done|].
  - apply submseteq_length in Hsub. unfold contacted in Hsub.
    rewrite length_fmap in Hsub. lia.
  - intros Hnd. apply submseteq_Permutation in Hsub as [k Hk].
    rewrite Hk in Hnd. by apply NoDup_app in Hnd as [? _].
Qed.

(** C2.  If an attempt [a] is answered 202 with an [x-blob-url] header
    and the HEAD request made to that URL is answered with a 2xx status,
    the outcome is [Succeeded] with that URL and [a] is the last attempt:
    no host is tried after it, whatever is left in the pool. *)
Theorem upload_file_succeeds_on_verified_202 s hosts hs filename branch auth hashalgo
    blobhash attempts a resp blob_url res :
  heap s !! hosts = Some hs →
  let run := upload_file E hosts filename branch auth hashalgo blobhash attempts s in
  a ∈ posts (trace run) →
  at_result a = inr resp →
  status_code resp = 202%Z →
  headers resp !! "x-blob-url" = Some blob_url →
  (blob_url, res) ∈ heads (trace run) →
  is_2xx res = true →
  result run = Ret (Succeeded blob_url) ∧ ∃ pre, posts (trace run) = pre ++ [a].
Proof.
  intros Hhosts run Ha Hres H202 Hurl Hhead H2xx. subst run.
  destruct (upload_file_loop_run hosts hs filename branch auth hashalgo blobhash attempts s Hhosts)
    as [(_ & Hp & _)|(digest & pool & _ & _ & Hrun)].
  - rewrite Hp in Ha. by apply elem_of_nil in Ha.
  - by eapply loop_run_succeeded.
Qed.

(** C3.  If the first attempt is answered 401 or 403, it is the only
    attempt and the outcome is [Failed], for every pool and every budget. *)
Theorem upload_file_stops_on_auth_failure s hosts hs filename branch auth hashalgo
    blobhash attempts a rest code :
  heap s !! hosts = Some hs →
  let run := upload_file E hosts filename branch auth hashalgo blobhash attempts s in
  posts (trace run) = a :: rest →
  status a = Some code →
  code = 401%Z ∨ code = 403%Z →
  rest = [] ∧ result run = Ret Failed.
Proof.
  intros Hhosts run Hposts Hst Hcode. subst run.
  destruct (upload_file_loop_run hosts hs filename branch auth hashalgo blobhash attempts s Hhosts)
    as [(_ & Hp & _)|(digest & pool & _ & _ & Hrun)]; [congruence|].
  rewrite Hposts in Hrun.
  eapply loop_run_forbidden in Hrun as (? & ? & _); [done|done|].
  unfold forbidden. by destruct Hcode as [-> | ->].
Qed.

(** C4.  If every attempt is answered with a status outside 202, 401 and
    403, and the pool has at least [budget] hosts, the call makes exactly
    [budget] POST attempts and the outcome is [Failed].  The file is one
    [upload_file] can open and hash ([uploadable]): otherwise [open] or
    [hashlib.new] raises before any host is contacted. *)
Theorem upload_file_exhausts_budget s hosts hs filename branch auth hashalgo blobhash
    (budget : nat) :
  heap s !! hosts = Some hs →
  uploadable s filename hashalgo blobhash →
  budget ≤ length hs →
  let run := upload_file E hosts filename branch auth hashalgo blobhash
               (Z.of_nat budget) s in
  Forall (λ a, retried a = true) (posts (trace run)) →
  result run = Ret Failed ∧ length (posts (trace run)) = budget.
Proof.
  intros Hhosts [Hfile Hav] Hbudget run Hall. subst run.
  destruct (upload_file_loop_run hosts hs filename branch auth hashalgo blobhash
              (Z.of_nat budget) s Hhosts)
    as [(_ & _ & _ & Hno)|(digest & pool & _ & Hperm & Hrun)]; [done|].
  eapply loop_run_exhausted in Hrun as [Hr Hlen]; [|done..].
  split; [done|]. rewrite Hlen, Hperm. lia.
Qed.

(** C5.  If an attempt [a] is answered 202 with no [x-blob-url] header,
    the outcome is [Failed], no HEAD request is made and [a] is the last
    attempt. *)
Theorem upload_file_fails_on_202_without_url s hosts hs filename branch auth hashalgo
    blobhash attempts a resp :
  heap s !! hosts = Some hs →
  let run := upload_file E hosts filename branch auth hashalgo blobhash attempts s in
  a ∈ posts (trace run) →
  at_result a = inr resp →
  status_code resp = 202%Z →
  headers resp !! "x-blob-url" = None →
  result run = Ret Failed ∧ heads (trace run) = [] ∧ ∃ pre, posts (trace run) = pre ++ [a].
Proof.
  intros Hhosts run Ha Hres H202 Hurl. subst run.
  destruct (upload_file_loop_run hosts hs filename branch auth hashalgo blobhash attempts s Hhosts)
    as [(_ & Hp & _)|(digest & pool & _ & _ & Hrun)].
  - rewrite Hp in Ha. by apply elem_of_nil in Ha.
  - by eapply loop_run_no_url.
Qed.

(** C6.  With an empty [hosts] list no POST and no HEAD request is made,
    and the outcome is [Failed] without the loop being entered.  The
    digest is computed first all the same: the outcome is [Failed] for a
    call that gets one ([digest_available]), and [filehash] raises for a
    call that does not. *)
Theorem upload_file_empty_hosts s hosts filename branch auth hashalgo blobhash attempts :
  heap s !! hosts = Some [] →
  let run := upload_file E hosts filename branch auth hashalgo blobhash attempts s in
  posts (trace run) = []
  ∧ heads (trace run) = []
  ∧ (digest_available s filename hashalgo blobhash → result run = Ret Failed).
Proof.
  intros Hhosts run. subst run.
  destruct (upload_file_loop_run hosts [] filename branch auth hashalgo blobhash attempts s Hhosts)
    as [(_ & Hp & Hh & Hno)|(digest & pool & _ & Hperm & Hrun)]; [done|].
  apply Permutation_nil_r in Hperm as ->.
  inv Hrun; try done; by destruct pool.
Qed.

(** C8.  After a call, however it ends, the caller's [hosts] list holds
    the same elements in the same order, and so does every list object
    that existed before: the call shuffles and pops a copy, a new object. *)
Theorem upload_file_preserves_hosts s hosts hs filename branch auth hashalgo blobhash
    attempts :
  heap s !! hosts = Some hs →
  let run := upload_file E hosts filename branch auth hashalgo blobhash attempts s in
  heap (final run) !! hosts = Some hs
  ∧ heap s `prefix_of` heap (final run).
Proof.
  intros Hhosts run. subst run.
  destruct (upload_file_run hosts hs filename branch auth hashalgo blobhash attempts s Hhosts)
    as (_ & Hpre & _).
  split; [by eapply prefix_lookup_Some|done].
Qed.

Lemma filehash_result_fs s1 s2 filename hashalgo :
  fs s1 = fs s2 →
  result (filehash E filename hashalgo s1) = result (filehash E filename hashalgo s2).
Proof. intros Hfs. rewrite !filehash_run, Hfs. by repeat case_match. Qed.

(** C9.  [filehash] is deterministic: on two files with the same bytes,
    in any two states, it gives the same result for the same algorithm
    name, and it does give one.  [upload_file] computes the digest once,
    before its loop, and every attempt of the call carries that digest and
    that algorithm name. *)
Theorem filehash_deterministic_and_reused s1 s2 f1 f2 hashalgo bytes hosts hs branch
    auth attempts :
  fs_read (fs s1) f1 = Some bytes →
  fs_read (fs s2) f2 = Some bytes →
  heap s1 !! hosts = Some hs →
  result (filehash E f1 hashalgo s1) = result (filehash E f2 hashalgo s2)
  ∧ result (filehash E f1 hashalgo s1) ≠ Stuck
  ∧ ∀ digest,
      result (filehash E f1 hashalgo s1) = Ret digest →
      Forall (λ a, at_hashalgo a = hashalgo ∧ at_blobhash a = digest)
        (posts (trace (upload_file E hosts f1 branch auth hashalgo None attempts s1))).
Proof.
  intros H1 H2 Hhosts. split_and!.
  - rewrite !filehash_run, H1, H2. by destruct (hashlib_new E hashalgo).
  - rewrite filehash_run, H1. destruct (hashlib_new E hashalgo) as [H|]; [|done].
    by destruct (hexdigest_is_Some H bytes) as [d ->].
  - intros digest Hdigest.
    destruct (upload_file_loop_run hosts hs f1 branch auth hashalgo None attempts s1 Hhosts)
      as [(_ & -> & _)|(digest' & pool & Hres & _ & Hrun)]; [done|].
    unfold hash_resolves in Hres. rewrite Hres in Hdigest. cbn in Hdigest.
    simplify_eq. by eapply loop_run_digest.
Qed.

(** ** The properties of [upload_dir] *)

Section Directory.
Context (hosts : loc) (hs : list string) (dirname branch : string) (auth : string * string).

Local Abbreviation body := (upload_entry E hosts dirname branch auth).

Lemma body_run f s :
  body f s =
  let '(r, s1, t) := upload_file E hosts (os_path_join dirname f) branch auth
                       default_hashalgo None default_attempts s in
  (match r with Ret _ => Ret tt | Raise e => Raise e | Stuck => Stuck end, s1, t).
Proof.
  unfold upload_entry. unfold_M. destruct (upload_file E _ _ _ _ _ _ _ s) as [[[o|e|] s1] t]; [|done..].
  by rewrite app_nil_r.
Qed.

(** What a walk over [files] does, file by file. *)
Lemma for_each_upload_run files s :
  heap s !! hosts = Some hs →
  let run := for_each E files body s in
  fs (final run) = fs s
  ∧ heap s `prefix_of` heap (final run)
  ∧ result run ≠ Stuck
  ∧ upload_starts (trace run) `prefix_of` (upload_started <$> (os_path_join dirname <$> files))
  ∧ (result run = Ret tt →
     upload_starts (trace run) = upload_started <$> (os_path_join dirname <$> files))
  ∧ Forall (λ a, at_hashalgo a = default_hashalgo
                 ∧ ∃ f, f ∈ files
                        ∧ result (filehash E (os_path_join dirname f) default_hashalgo s)
                          = Ret (at_blobhash a))
      (posts (trace run))
  ∧ length (posts (trace run)) ≤ 10 * length files.
Proof.
  revert s. induction files as [|f files IH]; intros s Hhosts run.
  { subst run. cbn. split_and!; try done; constructor. }
  pose proof (upload_file_run hosts hs (os_path_join dirname f) branch auth default_hashalgo
                None default_attempts s Hhosts) as Hup.
  pose proof (upload_file_not_stuck s hosts hs (os_path_join dirname f) branch auth
                default_hashalgo None default_attempts Hhosts) as Hns.
  subst run.
  change (for_each E (f :: files) body s)
    with (bind E (body f) (λ _, for_each E files body) s).
  unfold bind. rewrite body_run.
  destruct (upload_file E hosts _ _ _ _ _ _ s) as [[r1 s1] t1].
  cbn [result final trace fst snd] in Hup, Hns.
  destruct Hup as (Hfs1 & Hpre1 & Hcase).
  destruct r1 as [o|e|]; [|clear IH|done].
  - assert (Hhosts1 : heap s1 !! hosts = Some hs) by by eapply prefix_lookup_Some.
    specialize (IH s1 Hhosts1). cbn zeta in IH.
    destruct (for_each E files body s1) as [[r2 s2] t2].
    cbn [result final trace fst snd] in IH |- *.
    destruct IH as (Hfs2 & Hpre2 & Hns2 & Hst2 & Hall2 & Hdig2 & Hlen2).
    destruct Hcase as [(_ & e & _ & ? & _)|(digest & pool & Hres & Hperm & Hrun & Hst1)]; [done|].
    rewrite posts_app, upload_starts_app, Hst1.
    split_and!.
    + congruence.
    + by etrans.
    + done.
    + cbn [fmap list_fmap app]. by apply prefix_cons.
    + intros Hr. cbn [fmap list_fmap app]. f_equal. by apply Hall2.
    + apply Forall_app. split.
      * eapply Forall_impl; [by eapply loop_run_digest|].
        intros a [? <-]. split; [done|]. exists f. split; [left|].
        unfold hash_resolves in Hres. by rewrite Hres.
      * eapply Forall_impl; [done|]. intros a [? (f' & ? & Hf')]. split; [done|].
        exists f'. split; [by right|]. rewrite <-Hf'. by apply filehash_result_fs.
    + rewrite length_app. apply loop_run_budget in Hrun. cbn [length].
      unfold default_attempts in Hrun. lia.
  - cbn [result final trace fst snd].
    destruct Hcase as [(_ & e' & _ & _ & ->)|(digest & pool & Hres & Hperm & Hrun & Hst1)].
    + split_and!; try done.
      * apply prefix_nil.
      * cbn; lia.
    + rewrite Hst1. split_and!; try done.
      * cbn [fmap list_fmap]. apply prefix_cons, prefix_nil.
      * eapply Forall_impl; [by eapply loop_run_digest|].
        intros a [? <-]. split; [done|]. exists f. split; [left|].
        unfold hash_resolves in Hres. by rewrite Hres.
      * apply loop_run_budget in Hrun. cbn [length].
        unfold default_attempts in Hrun. lia.
Qed.


Lemma list_if_isfile entries s :
  list_if E (λ f, os_path_isfile E (os_path_join dirname f)) entries s
  = (Ret (regular_files (fs s) dirname entries), s, []).
Proof.
  induction entries as [|f entries IH]; [done|].
  cbn [list_if]. unfold_M. unfold os_path_isfile at 1. cbv beta iota zeta.
  rewrite IH. unfold regular_files.
  destruct (fs_isfile (fs s) (os_path_join dirname f)) eqn:Hf.
  - by rewrite filter_cons_True.
  - rewrite filter_cons_False; [done|]. by rewrite Hf.
Qed.

Lemma upload_dir_run hashalgo entries s :
  fs_listdir (fs s) dirname = Some entries →
  upload_dir E hosts dirname branch auth hashalgo s
  = let '(r, s', t) := for_each E (regular_files (fs s) dirname entries) body s in
    (r, s',
     [Log INFO "Open directory for files ...";
      Log DEBUG "Go through all files in directory"]
     ++ t ++ match r with
             | Ret _ => [Log INFO "Iteration through files over."]
             | _ => []
             end).
Proof.
  intros Hdir.
  change (upload_dir E hosts dirname branch auth hashalgo s) with
    (bind E (log E INFO "Open directory for files ...") (λ _,
     bind E (os_listdir E dirname) (λ entries,
     bind E (list_if E (λ f, os_path_isfile E (os_path_join dirname f)) entries) (λ dir_files,
     bind E (log E DEBUG "Go through all files in directory") (λ _,
     bind E (for_each E dir_files body) (λ _,
     log E INFO "Iteration through files over."))))) s).
  unfold bind, log, emit, os_listdir. rewrite Hdir. cbv beta iota zeta.
  rewrite list_if_isfile. cbv beta iota zeta.
  destruct (for_each E _ body s) as [[[[]|e|] s'] t]; by rewrite ?app_nil_r.
Qed.


End Directory.
(** ** More about the runs of the loop *)

Section LoopRunMore.
Context (raises : exn → Prop) (content : option (list byte)).
Context (hashalgo blobhash : string) (attempts : Z).
Implicit Types (ps : list Attempt) (hs : list (string * (exn + Response))).

Lemma loop_run_raise n pool r ps hs a e :
  loop_run raises content hashalgo blobhash attempts n pool r ps hs →
  a ∈ ps →
  at_result a = inl e →
  r = Raise e ∧ hs = [] ∧ ∃ pre, ps = pre ++ [a].
Proof.
  intros Hrun Ha Hres.
  induction Hrun as [| | | | | | |n pool host req resp' r ps hs Hn Ht Hrun IH];
    try (by apply elem_of_nil in Ha);
    try (apply list_elem_of_singleton in Ha as ->; cbn in Hres; simplify_eq;
         solve [ split_and!; [done|done|by exists []] ]).
  apply elem_of_cons in Ha as [->|Ha]; [done|].
  destruct (IH Ha) as (-> & -> & pre & ->). split_and!; [done|done|].
  by eexists (_ :: pre).
Qed.

Lemma loop_run_all_but_last n pool r ps hs pre a :
  loop_run raises content hashalgo blobhash attempts n pool r ps hs →
  ps = pre ++ [a] →
  Forall (λ a', retried a' = true) pre.
Proof.
  intros Hrun. revert pre.
  induction Hrun as [| | | | | | |n pool host req resp r ps hs Hn Ht Hrun IH]; intros pre Hps;
    try (by destruct pre);
    try (destruct pre as [|? [|]]; simplify_eq/=; by constructor).
  destruct pre as [|a' pre]; simplify_eq/=; [constructor|].
  constructor; [done|]. by apply IH.
Qed.

Lemma loop_run_success n pool r ps hs blob_url :
  loop_run raises content hashalgo blobhash attempts n pool r ps hs →
  r = Ret (Succeeded blob_url) →
  ∃ pre a resp ret_,
    ps = pre ++ [a]
    ∧ at_result a = inr resp
    ∧ status_code resp = 202%Z
    ∧ headers resp !! "x-blob-url" = Some blob_url
    ∧ hs = [(blob_url, inr ret_)]
    ∧ ok ret_ = true.
Proof.
  induction 1 as [| | | | |n pool host req resp u ret_| |n pool host req resp r ps hs Hn Ht Hrun IH];
    intros Hr; try done.
  - destruct (ok ret_) eqn:Hok; [|done]. simplify_eq.
    by eexists [], _, resp, ret_.
  - destruct (IH Hr) as (pre & a & resp' & ret_ & -> & ?). by eexists (_ :: pre), a, resp', ret_.
Qed.

Lemma loop_run_heads n pool r ps hs :
  loop_run raises content hashalgo blobhash attempts n pool r ps hs →
  length hs ≤ 1
  ∧ ∀ blob_url res, (blob_url, res) ∈ hs →
      blob_url ≠ ""
      ∧ ∃ a resp, last ps = Some a
                  ∧ at_result a = inr resp
                  ∧ status_code resp = 202%Z
                  ∧ headers resp !! "x-blob-url" = Some blob_url.
Proof.
  induction 1 as [| | | | | | |n pool host req resp r ps hs Hn Ht Hrun IH];
    try (split; [simpl; lia|]; intros u res Hin; by apply elem_of_nil in Hin);
    try (split; [simpl; lia|]; intros u res Hin; apply list_elem_of_singleton in Hin;
         simplify_eq; split; [done|]; by eexists _, _).
  destruct IH as [Hlen Hin]. split; [done|]. intros u res Hu.
  destruct (Hin u res Hu) as (Hne & a & resp' & Hlast & ?). split; [done|].
  exists a, resp'. split; [|done]. destruct ps; [done|]. by rewrite last_cons, Hlast.
Qed.

Lemma loop_run_all_hosts n pool r ps hs :
  loop_run raises content hashalgo blobhash attempts n pool r ps hs →
  is_Some content →
  Forall (λ a, retried a = true) ps →
  (Z.of_nat (length pool) ≤ attempts - n + 1)%Z →
  at_host <$> ps = reverse pool.
Proof.
  intros Hrun Hcontent Hall Hbudget.
  destruct (loop_run_exhausted _ _ _ _ _ _ _ _ _ _ Hrun Hcontent Hall) as [_ Hlen].
  destruct (loop_run_hosts _ _ _ _ _ _ _ _ _ _ Hrun) as [k Hk].
  assert (length k = 0) as ->%nil_length_inv.
  { apply (f_equal length) in Hk. rewrite length_app, length_reverse, length_fmap in Hk. lia. }
  rewrite Hk. simpl. by rewrite reverse_involutive.
Qed.
End LoopRunMore.

(** ** More about the loop and about one call *)

(** The requests the loop sends, its last record on success, and what
    it does with a file [open] refuses. *)
Lemma upload_loop_trace fuel pl filename branch auth hashalgo blobhash attempts n s pool
    r s' t :
  heap s !! pl = Some pool →
  length pool ≤ fuel →
  upload_loop E fuel pl filename branch auth hashalgo blobhash attempts n s = (r, s', t) →
  Forall (λ a, ∃ blob, fs_read (fs s) filename = Some blob
                       ∧ at_request a
                         = request_for E (at_host a) auth branch hashalgo blobhash blob)
    (posts t)
  ∧ (∀ blob_url, r = Ret (Succeeded blob_url) →
       last t = Some (upload_succeeded filename blob_url))
  ∧ (fs_read (fs s) filename = None → (n ≤ attempts)%Z → pool ≠ [] →
       r = Raise (IOError filename) ∧ posts t = []).
Proof.
  revert n s pool r s' t. induction fuel as [|fuel IH]; intros n s pool r s' t Hpl Hlen.
  - destruct pool; [|simpl in Hlen; lia].
    rewrite (upload_loop_exit _ _ _ _ _ _ _ _ _ _ []) by (done || tauto).
    intros [= <- <- <-]. split_and!; [constructor|done|done].
  - destruct (decide ((n ≤ attempts)%Z ∧ pool ≠ [])) as [[Hn Hne]|Hno]; last first.
    { rewrite (upload_loop_exit _ _ _ _ _ _ _ _ _ _ pool) by done.
      intros [= <- <- <-]. split_and!; [constructor|done|tauto]. }
    destruct (last pool) as [host|] eqn:Hlast; [|by apply last_None in Hlast].
    apply last_Some in Hlast as [pool' ->].
    cbn [upload_loop]. unfold_M.
    rewrite bool_decide_true by done.
    unfold list_bool at 1. rewrite Hpl. rewrite bool_decide_true by done.
    rewrite (list_pop_snoc _ pool' host) by done.
    unfold _post_file, open_rb. unfold_M. cbn [set_heap fs app].
    destruct (fs_read (fs s) filename) as [blob|] eqn:Hread.
    2:{ intros [= <- <- <-]. split_and!; [constructor|done|done]. }
    unfold post at 1. cbn [world set_heap].
    fold (request_for E host auth branch hashalgo blobhash blob).
    assert (Hone : ∀ res,
              Forall (λ a, ∃ blob0, Some blob = Some blob0
                        ∧ at_request a
                          = request_for E (at_host a) auth branch hashalgo blobhash blob0)
                [mkAttempt host hashalgo blobhash
                   (request_for E host auth branch hashalgo blobhash blob) res]).
    { intros res. constructor; [|constructor]. by exists blob. }
    destruct (requests_post E (world s) _) as [[e|resp] w] eqn:Hpost; cbn [http_result].
    { intros [= <- <- <-]. split_and!; [apply Hone|done|done]. }
    destruct (decide (status_code resp = 202%Z)) as [H202|H202].
    { rewrite (bool_decide_false (status_code resp ≠ 202%Z)) by tauto.
      rewrite (bool_decide_true (status_code resp = 202%Z)) by done.
      destruct (headers resp !! "x-blob-url") as [[|c blob_url]|] eqn:Hurl.
      + intros [= <- <- <-]. split_and!; [apply Hone|done|done].
      + unfold head at 1. cbn [world set_world].
        destruct (requests_head E w _) as [[e|ret_] w'] eqn:Hhead; cbn [http_result].
        * intros [= <- <- <-]. split_and!; [apply Hone|done|done].
        * destruct (ok ret_); intros [= <- <- <-].
          all: split_and!; [apply Hone| |done].
          -- by intros u [= <-].
          -- done.
      + intros [= <- <- <-]. split_and!; [apply Hone|done|done]. }
    rewrite (bool_decide_true (status_code resp ≠ 202%Z)) by done.
    rewrite (bool_decide_false (status_code resp = 202%Z)) by done.
    cbn [app].
    destruct (bool_decide (status_code resp = 403%Z) || bool_decide (status_code resp = 401%Z))
      eqn:Hforb.
    { intros [= <- <- <-]. split_and!; [apply Hone|done|done]. }
    destruct (upload_loop E fuel _ _ _ _ _ _ _ _ _) as [[r1 s1] t1] eqn:Hloop.
    intros [= <- <- <-].
    apply IH with (pool := pool') in Hloop as (Hreq & Hlast & _).
    + cbn [fs set_world set_heap heap] in *. rewrite Hread in Hreq. split_and!.
      * change (posts (?a :: ?b :: ?c :: Post ?h ?al ?bh ?rq ?rs :: ?d :: ?e :: t1))
          with (mkAttempt h al bh rq rs :: posts t1).
        constructor; [by exists blob|done].
      * intros u Hu. specialize (Hlast u Hu).
        rewrite !last_cons, Hlast. done.
      * done.
    + simpl. apply list_lookup_insert_eq. by eapply lookup_lt_Some.
    + rewrite length_app in Hlen. simpl in Hlen. lia.
Qed.

(** [upload_file], once it has a digest, as the loop on a shuffled copy. *)
Lemma upload_file_unfold hosts hs filename branch auth hashalgo blobhash attempts s digest :
  heap s !! hosts = Some hs →
  hash_resolves s filename hashalgo blobhash digest →
  ∃ pool w',
    pool ≡ₚ hs
    ∧ upload_file E hosts filename branch auth hashalgo blobhash attempts s
      = let '(r, s', t) :=
          upload_loop E (length pool) (length (heap s)) filename branch auth hashalgo digest
            attempts 1 (mkState w' (fs s) (heap s ++ [pool])) in
        (r, s',
         upload_started filename
         :: t ++ match r with
                 | Ret Failed => [upload_failed filename]
                 | _ => []
                 end).
Proof.
  intros Hhosts Hres.
  assert (Hfirst : (match blobhash with
                    | None => filehash E filename hashalgo
                    | Some h => mret h
                    end) s = (Ret digest, s, [])).
  { destruct blobhash; [|done]. unfold hash_resolves in Hres. by subst. }
  unfold mret, M_ret, ret in Hfirst.
  pose proof (shuffle_from_perm (length hs - 1) hs (world s)) as Hperm.
  destruct (shuffle_from E (length hs - 1) hs (world s)) as [pool w'] eqn:Hshuffle.
  exists pool, w'. split; [done|].
  unfold upload_file. unfold_M. rewrite Hfirst.
  unfold list_copy. rewrite Hhosts.
  unfold random_shuffle. cbn [heap set_heap world fs].
  rewrite list_lookup_middle by done. rewrite Hshuffle.
  rewrite insert_app_r_alt, Nat.sub_diag by done. cbn [insert list_insert].
  unfold list_len. cbn [heap]. rewrite list_lookup_middle by done.
  destruct (upload_loop E _ _ _ _ _ _ _ _ _ _) as [[[[u|]|e|] s1] t1];
    cbn [file_uploaded app]; by rewrite ?app_nil_r.
Qed.

Lemma filehash_unreadable filename hashalgo s :
  fs_read (fs s) filename = None →
  filehash E filename hashalgo s
  = (Raise match hashlib_new E hashalgo with
           | Some _ => IOError filename
           | None => ValueError ("unsupported hash type " +:+ hashalgo)
           end, s, []).
Proof. intros Hread. rewrite filehash_run, Hread. by destruct (hashlib_new E hashalgo). Qed.

(** What [upload_file] gives when [filehash] is called and raises. *)
Lemma upload_file_hash_raises hosts filename branch auth hashalgo attempts s e :
  filehash E filename hashalgo s = (Raise e, s, []) →
  upload_file E hosts filename branch auth hashalgo None attempts s = (Raise e, s, []).
Proof. intros He. unfold upload_file. unfold_M. by rewrite He. Qed.

Lemma hash_resolves_cases s filename hashalgo blobhash :
  (blobhash = None ∧ ∃ e, filehash E filename hashalgo s = (Raise e, s, []))
  ∨ ∃ digest, hash_resolves s filename hashalgo blobhash digest.
Proof.
  destruct blobhash as [h|]; [right; by exists h|].
  destruct (filehash_cases filename hashalgo s) as [[e He]|[d Hd]]; [left|right]; eauto.
Qed.

Lemma hash_resolves_digest s filename hashalgo blobhash digest blob :
  hash_resolves s filename hashalgo blobhash digest →
  fs_read (fs s) filename = Some blob →
  match blobhash with
  | Some h => digest = h
  | None => ∃ H, hashlib_new E hashalgo = Some H ∧ hexdigest H blob = Some digest
  end.
Proof.
  destruct blobhash as [h|]; [done|]. unfold hash_resolves. rewrite filehash_run.
  intros Hres Hblob. rewrite Hblob in Hres.
  destruct (hashlib_new E hashalgo) as [H|]; [|done]. exists H. split; [done|].
  destruct (hexdigest H blob); by simplify_eq/=.
Qed.

Lemma upload_file_posts s hosts hs filename branch auth hashalgo blobhash attempts :
  heap s !! hosts = Some hs →
  Forall (λ a, ∃ blob digest,
            fs_read (fs s) filename = Some blob
            ∧ hash_resolves s filename hashalgo blobhash digest
            ∧ at_request a = request_for E (at_host a) auth branch hashalgo digest blob)
    (posts (trace (upload_file E hosts filename branch auth hashalgo blobhash attempts s))).
Proof.
  intros Hhosts.
  destruct (hash_resolves_cases s filename hashalgo blobhash) as [[-> [e He]]|[digest Hres]].
  { rewrite (upload_file_hash_raises _ _ _ _ _ _ _ e) by done. constructor. }
  destruct (upload_file_unfold hosts hs filename branch auth hashalgo blobhash attempts s
              digest Hhosts Hres) as (pool & w' & _ & ->).
  destruct (upload_loop E _ _ _ _ _ _ _ _ _ _) as [[r s1] t1] eqn:Hloop.
  apply upload_loop_trace with (pool := pool) in Hloop as (Hreq & _);
    [|by apply list_lookup_middle|done].
  cbn [trace snd fs] in *. unfold upload_started.
  change (posts (Log ?l ?m :: ?t)) with (posts t). rewrite posts_app.
  replace (posts match r with Ret Failed => [upload_failed filename] | _ => [] end)
    with (@nil Attempt) by (by destruct r as [[]| |]).
  rewrite app_nil_r. eapply Forall_impl; [done|].
  intros a (blob & Hblob & Ha). by exists blob, digest.
Qed.

(** What the trace of one call without a [blobhash] shows: the budget,
    the hosts, the digest and the request of every attempt and, when the
    call returns, that the file was hashed and the upload run. *)
Lemma upload_file_default_call s hosts hs filename branch auth hashalgo attempts :
  heap s !! hosts = Some hs →
  let run := upload_file E hosts filename branch auth hashalgo None attempts s in
  length (posts (trace run)) ≤ length hs `min` Z.to_nat attempts
  ∧ contacted (trace run) ⊆+ hs
  ∧ Forall (λ a, at_hashalgo a = hashalgo
                 ∧ result (filehash E filename hashalgo s) = Ret (at_blobhash a)
                 ∧ ∃ blob H,
                     fs_read (fs s) filename = Some blob
                     ∧ hashlib_new E hashalgo = Some H
                     ∧ hexdigest H blob = Some (at_blobhash a)
                     ∧ at_request a
                       = request_for E (at_host a) auth branch hashalgo (at_blobhash a) blob)
      (posts (trace run))
  ∧ ∀ o, result run = Ret o →
      (∃ digest, result (filehash E filename hashalgo s) = Ret digest)
      ∧ hd_error (trace run) = Some (upload_started filename)
      ∧ upload_starts (trace run) = [upload_started filename]
      ∧ (o = Failed → last (trace run) = Some (upload_failed filename))
      ∧ (hs ≠ [] → (1 ≤ attempts)%Z → posts (trace run) ≠ [])
      ∧ (Forall (λ a, retried a = true) (posts (trace run)) →
         o = Failed ∧ length (posts (trace run)) = length hs `min` Z.to_nat attempts).
Proof.
  intros Hhosts run.
  pose proof (upload_file_posts s hosts hs filename branch auth hashalgo None attempts Hhosts)
    as Hreq.
  destruct (upload_file_run hosts hs filename branch auth hashalgo None attempts s Hhosts)
    as (_ & _ & [(_ & e & He & Hr & Ht)|(digest & pool & Hres & Hperm & Hrun & Hst)]).
  { fold run in Hr, Ht. unfold contacted. rewrite Ht, Hr. cbn.
    split_and!; [lia|apply submseteq_nil_l|constructor|done]. }
  fold run in Hrun, Hst, Hreq.
  destruct (loop_run_hosts _ _ _ _ _ _ _ _ _ _ Hrun) as [k Hk].
  assert (Hsub : contacted (trace run) ⊆+ hs).
  { rewrite <-Hperm, Hk, <-(reverse_Permutation (contacted (trace run))).
    by apply submseteq_inserts_l. }
  unfold hash_resolves in Hres.
  split_and!.
  - apply submseteq_length in Hsub. unfold contacted in Hsub. rewrite length_fmap in Hsub.
    apply loop_run_budget in Hrun. lia.
  - done.
  - pose proof (loop_run_digest _ _ _ _ _ _ _ _ _ _ Hrun) as Hdig.
    eapply Forall_impl; [apply Forall_and; split; [exact Hdig|exact Hreq]|].
    intros a [[? Hd] (blob & digest' & Hblob & Hres' & Ha)]. cbn beta in *.
    unfold hash_resolves in Hres'. assert (digest' = digest) as -> by congruence.
    destruct (hash_resolves_digest s filename hashalgo None digest blob Hres Hblob)
      as (Hh & HH & HHd).
    rewrite Hd. split_and!; [done|by rewrite Hres|]. by exists blob, Hh.
  - intros o Ho.
    assert (Hends : hd_error (trace run) = Some (upload_started filename)
                    ∧ (o = Failed → last (trace run) = Some (upload_failed filename))).
    { destruct (upload_file_unfold hosts hs filename branch auth hashalgo None attempts s
                  digest Hhosts Hres) as (pool' & w' & _ & Hunf).
      unfold run in Ho |- *. rewrite Hunf in Ho |- *.
      destruct (upload_loop E _ _ _ _ _ _ _ _ _ _) as [[r s1] t1].
      cbn [result trace fst snd] in *. subst r. split; [done|]. intros ->.
      by rewrite last_cons, last_snoc. }
    destruct Hends as [Hhead Hlast].
    split_and!; [exists digest; by rewrite Hres|done|done|done| |].
    + intros Hne Hatt Hnil. rewrite Hnil, Ho in Hrun. clear Hk Hsub.
      inv Hrun. match goal with H : ¬ _ |- _ => apply H end. split; [done|].
      intros Hpool. rewrite Hpool in Hperm. apply Hne. symmetry.
      by apply Permutation_nil_l.
    + intros Hall.
      assert (is_Some (fs_read (fs s) filename)) as Hread.
      { destruct (fs_read (fs s) filename) as [blob|] eqn:Hread; [by eexists|].
        rewrite (filehash_unreadable _ _ _ Hread) in Hres. done. }
      destruct (loop_run_exhausted _ _ _ _ _ _ _ _ _ _ Hrun Hread Hall) as [Hr Hlen].
      split; [congruence|]. rewrite Hlen, Hperm. f_equal. lia.
Qed.

(** X4.  Every POST of a call sends the bytes of the file, the branch and
    the caller's credentials to [urljoin(host, '/blobs/<hashalgo>/<digest>')],
    checked against the CA bundle.  The digest is the [blobhash] given;
    with none given it is the digest of the very bytes sent. *)
Theorem upload_file_requests s hosts hs filename branch auth hashalgo blobhash attempts :
  heap s !! hosts = Some hs →
  Forall (λ a, ∃ blob digest,
            fs_read (fs s) filename = Some blob
            ∧ at_request a = request_for E (at_host a) auth branch hashalgo digest blob
            ∧ match blobhash with
              | Some h => digest = h
              | None => ∃ H, hashlib_new E hashalgo = Some H
                             ∧ hexdigest H blob = Some digest
              end)
    (posts (trace (upload_file E hosts filename branch auth hashalgo blobhash attempts s))).
Proof.
  intros Hhosts. eapply Forall_impl; [by eapply upload_file_posts|].
  intros a (blob & digest & Hblob & Hres & Ha). exists blob, digest.
  split_and!; [done..|]. by eapply hash_resolves_digest.
Qed.

(** X10.  The last record of a call that returns tells its outcome: the
    warning that the upload failed, or the notice of the URL found. *)
Theorem upload_file_last_record s hosts hs filename branch auth hashalgo blobhash attempts
    outcome :
  heap s !! hosts = Some hs →
  let run := upload_file E hosts filename branch auth hashalgo blobhash attempts s in
  result run = Ret outcome →
  last (trace run)
  = Some match outcome with
         | Succeeded blob_url => upload_succeeded filename blob_url
         | Failed => upload_failed filename
         end.
Proof.
  intros Hhosts run. subst run.
  destruct (hash_resolves_cases s filename hashalgo blobhash) as [[-> [e He]]|[digest Hres]].
  { by rewrite (upload_file_hash_raises _ _ _ _ _ _ _ e). }
  destruct (upload_file_unfold hosts hs filename branch auth hashalgo blobhash attempts s
              digest Hhosts Hres) as (pool & w' & _ & ->).
  destruct (upload_loop E _ _ _ _ _ _ _ _ _ _) as [[r s1] t1] eqn:Hloop.
  apply upload_loop_trace with (pool := pool) in Hloop as (_ & Hlast & _);
    [|by apply list_lookup_middle|done].
  cbn [result trace fst snd]. intros ->. destruct outcome as [u|].
  - specialize (Hlast u eq_refl). rewrite app_nil_r. destruct t1; [done|].
    by rewrite last_cons, Hlast.
  - by rewrite app_comm_cons, last_snoc.
Qed.

(** X5.  An exception [requests.post] raises is not caught: the call ends
    with it, the attempt is the last one, no other host is tried and no
    HEAD request is made. *)
Theorem upload_file_transport_error s hosts hs filename branch auth hashalgo blobhash
    attempts a e :
  heap s !! hosts = Some hs →
  let run := upload_file E hosts filename branch auth hashalgo blobhash attempts s in
  a ∈ posts (trace run) →
  at_result a = inl e →
  result run = Raise e ∧ heads (trace run) = [] ∧ ∃ pre, posts (trace run) = pre ++ [a].
Proof.
  intros Hhosts run Ha Hres. subst run.
  destruct (upload_file_loop_run hosts hs filename branch auth hashalgo blobhash attempts s Hhosts)
    as [(_ & Hp & _)|(digest & pool & _ & _ & Hrun)].
  - rewrite Hp in Ha. by apply elem_of_nil in Ha.
  - by eapply loop_run_raise.
Qed.

(** X6.  Only a status outside 202, 401 and 403 makes the loop go on:
    every attempt of a call but the last came back with such a status. *)
Theorem upload_file_retries_only_transient s hosts hs filename branch auth hashalgo blobhash
    attempts pre a :
  heap s !! hosts = Some hs →
  posts (trace (upload_file E hosts filename branch auth hashalgo blobhash attempts s))
  = pre ++ [a] →
  Forall (λ a', retried a' = true) pre.
Proof.
  intros Hhosts Hps.
  destruct (upload_file_loop_run hosts hs filename branch auth hashalgo blobhash attempts s Hhosts)
    as [(_ & Hp & _)|(digest & pool & _ & _ & Hrun)].
  - rewrite Hp in Hps. by destruct pre.
  - by eapply loop_run_all_but_last.
Qed.

(** X7.  A call reports success only for a blob it has found: the last
    attempt was answered 202 with that URL in [x-blob-url], and the one
    HEAD request, to that URL, was answered with a status that is [ok]. *)
Theorem upload_file_success_is_verified s hosts hs filename branch auth hashalgo blobhash
    attempts blob_url :
  heap s !! hosts = Some hs →
  let run := upload_file E hosts filename branch auth hashalgo blobhash attempts s in
  result run = Ret (Succeeded blob_url) →
  ∃ pre a resp ret_,
    posts (trace run) = pre ++ [a]
    ∧ at_result a = inr resp
    ∧ status_code resp = 202%Z
    ∧ headers resp !! "x-blob-url" = Some blob_url
    ∧ heads (trace run) = [(blob_url, inr ret_)]
    ∧ ok ret_ = true.
Proof.
  intros Hhosts run Hr. subst run.
  destruct (upload_file_loop_run hosts hs filename branch auth hashalgo blobhash attempts s Hhosts)
    as [(_ & _ & _ & Hno)|(digest & pool & _ & _ & Hrun)].
  - destruct (hash_resolves_cases s filename hashalgo blobhash) as [[-> [e He]]|[digest Hres]].
    + by rewrite (upload_file_hash_raises _ _ _ _ _ _ _ e) in Hr.
    + destruct Hno. intros ->. unfold hash_resolves in Hres. rewrite filehash_run in Hres.
      destruct (hashlib_new E hashalgo); [|done].
      destruct (fs_read (fs s) filename); [|done]. split; by eexists.
  - by eapply loop_run_success.
Qed.

(** X8.  A call makes at most one HEAD request, and only to the URL, not
    empty, that the last POST's 202 answer gave in [x-blob-url]. *)
Theorem upload_file_head_discipline s hosts hs filename branch auth hashalgo blobhash
    attempts :
  heap s !! hosts = Some hs →
  let run := upload_file E hosts filename branch auth hashalgo blobhash attempts s in
  length (heads (trace run)) ≤ 1
  ∧ ∀ blob_url res, (blob_url, res) ∈ heads (trace run) →
      blob_url ≠ ""
      ∧ ∃ a resp, last (posts (trace run)) = Some a
                  ∧ at_result a = inr resp
                  ∧ status_code resp = 202%Z
                  ∧ headers resp !! "x-blob-url" = Some blob_url.
Proof.
  intros Hhosts run. subst run.
  destruct (upload_file_loop_run hosts hs filename branch auth hashalgo blobhash attempts s Hhosts)
    as [(_ & _ & -> & _)|(digest & pool & _ & _ & Hrun)].
  - split; [simpl; lia|]. intros u res Hin. by apply elem_of_nil in Hin.
  - by eapply loop_run_heads.
Qed.

(** X9.  When every attempt comes back with a status outside 202, 401
    and 403 and the budget covers the pool, every host of the pool is
    tried, once: the hosts contacted are a permutation of [hosts]. *)
Theorem upload_file_tries_every_host s hosts hs filename branch auth hashalgo blobhash
    (budget : nat) :
  heap s !! hosts = Some hs →
  uploadable s filename hashalgo blobhash →
  length hs ≤ budget →
  let run := upload_file E hosts filename branch auth hashalgo blobhash
               (Z.of_nat budget) s in
  Forall (λ a, retried a = true) (posts (trace run)) →
  contacted (trace run) ≡ₚ hs.
Proof.
  intros Hhosts [Hfile Hav] Hbudget run Hall. subst run.
  destruct (upload_file_loop_run hosts hs filename branch auth hashalgo blobhash
              (Z.of_nat budget) s Hhosts)
    as [(_ & _ & _ & Hno)|(digest & pool & _ & Hperm & Hrun)]; [done|].
  unfold contacted. erewrite loop_run_all_hosts; [|done..|].
  - by rewrite reverse_Permutation.
  - rewrite Hperm. lia.
Qed.

(** X3.  A file [open] refuses.  With no [blobhash] given the call raises
    at once, [ValueError] for an algorithm [hashlib] does not know and
    [IOError] otherwise: nothing is logged, copied or sent.  With a
    [blobhash] given, a pool that is not empty and a budget of at least
    one attempt, the first [_post_file] raises [IOError]: no request is
    made. *)
Theorem upload_file_unreadable s hosts hs filename branch auth hashalgo blobhash attempts :
  heap s !! hosts = Some hs →
  fs_read (fs s) filename = None →
  let run := upload_file E hosts filename branch auth hashalgo blobhash attempts s in
  posts (trace run) = []
  ∧ heads (trace run) = []
  ∧ match blobhash with
    | None =>
        run = (Raise match hashlib_new E hashalgo with
                     | Some _ => IOError filename
                     | None => ValueError ("unsupported hash type " +:+ hashalgo)
                     end, s, [])
    | Some _ =>
        hs ≠ [] → (1 ≤ attempts)%Z → result run = Raise (IOError filename)
    end.
Proof.
  intros Hhosts Hread run. subst run.
  destruct blobhash as [h|].
  - destruct (upload_file_unfold hosts hs filename branch auth hashalgo (Some h) attempts s
                h Hhosts eq_refl) as (pool & w' & Hperm & ->).
    destruct (upload_loop E _ _ _ _ _ _ _ _ _ _) as [[r s1] t1] eqn:Hloop.
    pose proof Hloop as Hrun.
    apply upload_loop_trace with (pool := pool) in Hloop as (Hreq & _ & Hraise);
      [|by apply list_lookup_middle|done].
    apply upload_loop_run with (pool := pool) in Hrun as (Hrun & _);
      [|by apply list_lookup_middle|done].
    cbn [fs] in *.
    assert (Hposts : posts t1 = []).
    { destruct (posts t1) as [|a ps]; [done|].
      apply Forall_cons_1 in Hreq as [(blob & ? & _) _]. congruence. }
    assert (Hheads : heads t1 = []).
    { apply loop_run_heads in Hrun as [_ Hin]. destruct (heads t1) as [|[u res] ?]; [done|].
      destruct (Hin u res) as (_ & a & resp & Hlast & _); [left|].
      by rewrite Hposts in Hlast. }
    cbn [result trace fst snd]. unfold upload_started.
    change (posts (Log ?l ?m :: ?t)) with (posts t).
    change (heads (Log ?l ?m :: ?t)) with (heads t).
    rewrite posts_app, heads_app, Hposts, Hheads.
    split_and!; [by destruct r as [[]| |]..|].
    intros Hne Hatt. apply Hraise; [done..|].
    intros ->. by apply Permutation_nil_l in Hperm.
  - rewrite (upload_file_hash_raises _ _ _ _ _ _ _ _ (filehash_unreadable _ _ _ Hread)).
    done.
Qed.


(** X18.  A budget below one attempt: the loop is not entered, no host
    is contacted, and the outcome is [Failed] for a call that has a
    digest. *)
Theorem upload_file_no_budget s hosts hs filename branch auth hashalgo blobhash attempts :
  heap s !! hosts = Some hs →
  (attempts < 1)%Z →
  let run := upload_file E hosts filename branch auth hashalgo blobhash attempts s in
  posts (trace run) = []
  ∧ heads (trace run) = []
  ∧ (digest_available s filename hashalgo blobhash → result run = Ret Failed).
Proof.
  intros Hhosts Hattempts run. subst run.
  destruct (upload_file_loop_run hosts hs filename branch auth hashalgo blobhash attempts s Hhosts)
    as [(_ & Hp & Hh & Hno)|(digest & pool & _ & _ & Hrun)]; [done|].
  inv Hrun; try lia. done.
Qed.

(** ** More about [filehash] *)

Lemma f_read_spec size f :
  f = (f_read size f).1 ++ (f_read size f).2
  ∧ (N.of_nat (length (f_read size f).1) ≤ size)%N.
Proof.
  revert size. induction f as [|b f IH]; intros size; cbn [f_read].
  - split; [done|]. simpl. lia.
  - destruct (N.eqb_spec size 0) as [->|Hsize]; [done|].
    destruct (IH (N.pred size)) as [Happ Hlen].
    destruct (f_read (N.pred size) f) as [block rest]. cbn [fst snd app length] in *.
    split; [by rewrite <-Happ|]. lia.
Qed.

Lemma read_blocks_spec fuel f :
  length f ≤ fuel →
  concat (read_blocks fuel f) = f
  ∧ Forall (λ block, block ≠ [] ∧ (N.of_nat (length block) ≤ 1024 ^ 2)%N)
      (read_blocks fuel f).
Proof.
  revert f. induction fuel as [|fuel IH]; intros f Hlen.
  - destruct f; [|simpl in Hlen; lia]. split; [done|constructor].
  - destruct f as [|b f]; [split; [done|constructor]|].
    destruct (f_read_cons (1024 ^ 2) b f) as (block & rest & Heq & Hrest); [done|].
    destruct (f_read_spec (1024 ^ 2) (b :: f)) as [Happ Hsize].
    cbn [read_blocks]. rewrite Heq in *. cbn [fst snd] in *.
    destruct (IH rest) as [Hconcat Hall]; [simpl in Hlen; lia|].
    split.
    + cbn [concat]. by rewrite Hconcat.
    + by constructor.
Qed.

Lemma hash_blocks_read_blocks H fuel h f :
  length f ≤ fuel →
  hash_blocks H fuel h f = Some (foldl (h_update H) h (read_blocks fuel f)).
Proof.
  revert h f. induction fuel as [|fuel IH]; intros h f Hlen.
  - by destruct f; [|simpl in Hlen; lia].
  - destruct f as [|b f]; [done|].
    destruct (f_read_cons (1024 ^ 2) b f) as (block & rest & Heq & Hrest); [done|].
    cbn [hash_blocks read_blocks]. rewrite Heq. cbn [foldl].
    apply IH. simpl in Hlen. lia.
Qed.

Lemma streaming_foldl H h block blocks :
  streaming H →
  foldl (h_update H) h (block :: blocks) = h_update H h (concat (block :: blocks)).
Proof.
  intros Hstream. revert h block. induction blocks as [|b' blocks IH]; intros h block.
  - cbn. by rewrite app_nil_r.
  - cbn [foldl] in *. rewrite IH. cbn [concat]. by rewrite Hstream.
Qed.

(** X1.  [filehash] gives the hash object the bytes of the file in order
    and in blocks of at most [1024 ** 2] bytes, none of them empty, and
    returns its [hexdigest]; it logs nothing and changes nothing. *)
Theorem filehash_reads_blocks s filename hashalgo H f :
  hashlib_new E hashalgo = Some H →
  fs_read (fs s) filename = Some f →
  ∃ blocks,
    concat blocks = f
    ∧ Forall (λ block, block ≠ [] ∧ (N.of_nat (length block) ≤ 1024 ^ 2)%N) blocks
    ∧ filehash E filename hashalgo s
      = (Ret (h_hexdigest H (foldl (h_update H) (h_new H) blocks)), s, []).
Proof.
  intros HH Hf. exists (read_blocks (length f) f).
  destruct (read_blocks_spec (length f) f) as [Hconcat Hall]; [done|].
  split_and!; [done..|].
  rewrite filehash_run, HH, Hf. unfold hexdigest.
  by rewrite hash_blocks_read_blocks.
Qed.

(** X2.  For a hash object that hashes pieces as it hashes the whole,
    reading in blocks does not show: the digest of a file that is not
    empty is the digest of one [update] with all its bytes, and the digest
    of an empty file that of a hash object never updated. *)
Theorem filehash_whole_file s filename hashalgo H f :
  hashlib_new E hashalgo = Some H →
  fs_read (fs s) filename = Some f →
  streaming H →
  result (filehash E filename hashalgo s)
  = Ret (h_hexdigest H match f with
                       | [] => h_new H
                       | _ :: _ => h_update H (h_new H) f
                       end).
Proof.
  intros HH Hf Hstream.
  rewrite filehash_run, HH, Hf. unfold hexdigest.
  rewrite hash_blocks_read_blocks by done.
  destruct (read_blocks_spec (length f) f) as [Hconcat _]; [done|].
  destruct (read_blocks (length f) f) as [|block blocks] eqn:Hblocks.
  - cbn in Hconcat. by subst.
  - rewrite streaming_foldl, Hconcat by done. cbn [result fst from_option fmap option_fmap option_map].
    destruct f; [|done]. by destruct block.
Qed.


(** ** More about [upload_dir] *)

Lemma posts_concat ts : posts (concat ts) = concat (posts <$> ts).
Proof. induction ts as [|t ts IH]; [done|]. cbn. by rewrite posts_app, IH. Qed.

Section DirectoryMore.
Context (hosts : loc) (hs : list string) (dirname branch : string) (auth : string * string).

Local Abbreviation body := (upload_entry E hosts dirname branch auth).

(** The requests and the number of attempts of a walk over [files]. *)
Lemma for_each_upload_posts files s :
  heap s !! hosts = Some hs →
  let run := for_each E files body s in
  Forall (λ a, ∃ f blob digest H,
            f ∈ files
            ∧ fs_read (fs s) (os_path_join dirname f) = Some blob
            ∧ hashlib_new E default_hashalgo = Some H
            ∧ hexdigest H blob = Some digest
            ∧ at_request a
              = request_for E (at_host a) auth branch default_hashalgo digest blob)
    (posts (trace run))
  ∧ (is_Some (hashlib_new E default_hashalgo) →
     Forall (λ f, is_Some (fs_read (fs s) (os_path_join dirname f))) files →
     Forall (λ a, retried a = true) (posts (trace run)) →
     result run = Ret tt
     ∧ length (posts (trace run)) = length files * (length hs `min` 10)).
Proof.
  revert s. induction files as [|f files IH]; intros s Hhosts run.
  { subst run. cbn. split; [constructor|done]. }
  pose proof (upload_file_run hosts hs (os_path_join dirname f) branch auth default_hashalgo
                None default_attempts s Hhosts) as (Hfs1 & Hpre1 & _).
  pose proof (upload_file_posts s hosts hs (os_path_join dirname f) branch auth
                default_hashalgo None default_attempts Hhosts) as Hreq1.
  pose proof (upload_file_loop_run hosts hs (os_path_join dirname f) branch auth
                default_hashalgo None default_attempts s Hhosts) as Hrun1.
  subst run.
  change (for_each E (f :: files) body s)
    with (bind E (body f) (λ _, for_each E files body) s).
  unfold bind. rewrite body_run.
  destruct (upload_file E hosts _ _ _ _ _ _ s) as [[r1 s1] t1].
  cbn [result final trace fst snd] in Hfs1, Hpre1, Hreq1, Hrun1.
  assert (Hreq1' : Forall (λ a, ∃ f0 blob digest H,
            f0 ∈ f :: files
            ∧ fs_read (fs s) (os_path_join dirname f0) = Some blob
            ∧ hashlib_new E default_hashalgo = Some H
            ∧ hexdigest H blob = Some digest
            ∧ at_request a
              = request_for E (at_host a) auth branch default_hashalgo digest blob)
           (posts t1)).
  { eapply Forall_impl; [done|]. intros a (blob & digest & Hblob & Hres & Ha).
    destruct (hash_resolves_digest _ _ _ _ _ _ Hres Hblob) as (H & HH & Hd).
    exists f, blob, digest, H. split_and!; [left|done..]. }
  destruct r1 as [o|e|].
  - assert (Hhosts1 : heap s1 !! hosts = Some hs) by by eapply prefix_lookup_Some.
    specialize (IH s1 Hhosts1). cbn zeta in IH.
    destruct (for_each E files body s1) as [[r2 s2] t2].
    cbn [result final trace fst snd] in IH |- *. destruct IH as [Hreq2 Hcount2].
    rewrite posts_app. split.
    + apply Forall_app. split; [done|].
      eapply Forall_impl; [done|].
      intros a (f0 & blob & digest & H & ? & Hblob & ? & ? & ?).
      exists f0, blob, digest, H. rewrite <-Hfs1. split_and!; [by right|done..].
    + intros Halgo [Hf Hfiles]%Forall_cons_1 [Hall1 Hall2]%Forall_app.
      destruct Hcount2 as [-> Hlen2]; [done| |done|].
      { eapply Forall_impl; [done|]. intros f0 ?. by rewrite Hfs1. }
      split; [done|]. rewrite length_app, Hlen2. cbn [length].
      destruct Hrun1 as [(_ & _ & _ & Hno)|(digest & pool & _ & Hperm & Hrun)].
      { destruct Hno. by intros _. }
      apply loop_run_exhausted in Hrun as [_ Hlen1]; [|done..].
      rewrite Hlen1, Hperm. unfold default_attempts. lia.
  - cbn [result trace fst snd]. split; [done|].
    intros Halgo [Hf Hfiles]%Forall_cons_1 Hall.
    destruct Hrun1 as [(_ & _ & _ & Hno)|(digest & pool & _ & Hperm & Hrun)].
    { destruct Hno. by intros _. }
    by apply loop_run_exhausted in Hrun as [? _].
  - cbn [result trace fst snd]. split; [done|].
    intros Halgo [Hf Hfiles]%Forall_cons_1 Hall.
    destruct Hrun1 as [(? & _)|(digest & pool & _ & Hperm & Hrun)]; [done|].
    by apply loop_run_exhausted in Hrun as [? _].
Qed.

Lemma upload_dir_posts hashalgo entries s :
  fs_listdir (fs s) dirname = Some entries →
  posts (trace (upload_dir E hosts dirname branch auth hashalgo s))
  = posts (trace (for_each E (regular_files (fs s) dirname entries) body s))
  ∧ (result (for_each E (regular_files (fs s) dirname entries) body s) = Ret tt →
     result (upload_dir E hosts dirname branch auth hashalgo s) = Ret tt).
Proof.
  intros Hdir. rewrite (upload_dir_run _ _ _ _ _ entries) by done.
  destruct (for_each E _ body s) as [[r s'] t]. cbn [result trace fst snd].
  split; [|done]. rewrite !posts_app. by destruct r as [[]| |]; cbn; rewrite app_nil_r.
Qed.

(** A walk over [files] is the calls of [default_uploads], one after the
    other, each from a state with the disk and the [hosts] list of the
    start. *)
Lemma for_each_upload_calls files s :
  heap s !! hosts = Some hs →
  let run := for_each E files body s in
  let calls := default_uploads E hosts dirname branch auth files s in
  trace run = concat ((λ c, trace c.2) <$> calls)
  ∧ calls.*1 `prefix_of` files
  ∧ (result run = Ret tt →
     calls.*1 = files ∧ Forall (λ c, ∃ o, result c.2 = Ret o) calls)
  ∧ Forall (λ c, ∃ s0, fs s0 = fs s ∧ heap s0 !! hosts = Some hs
                       ∧ c.2 = upload_file E hosts (os_path_join dirname c.1) branch auth
                                 "sha512" None 10 s0) calls.
Proof.
  revert s. induction files as [|f files IH]; intros s Hhosts run calls.
  { subst run calls. cbn. split_and!; [done|done|done|constructor]. }
  pose proof (upload_file_run hosts hs (os_path_join dirname f) branch auth "sha512"
                None 10 s Hhosts) as (Hfs1 & Hpre1 & _).
  subst run calls.
  change (for_each E (f :: files) body s)
    with (bind E (body f) (λ _, for_each E files body) s).
  unfold bind. rewrite body_run. unfold default_hashalgo, default_attempts.
  cbn [default_uploads]. cbv zeta.
  destruct (upload_file E hosts _ _ _ _ _ _ s) as [[r1 s1] t1] eqn:Hcall.
  cbn [result final trace fst snd] in *.
  assert (Hfirst : ∃ s0, fs s0 = fs s ∧ heap s0 !! hosts = Some hs
                         ∧ (r1, s1, t1)
                           = upload_file E hosts (os_path_join dirname f) branch auth
                               "sha512" None 10 s0).
  { by exists s. }
  destruct r1 as [o|e|].
  - assert (Hhosts1 : heap s1 !! hosts = Some hs) by by eapply prefix_lookup_Some.
    specialize (IH s1 Hhosts1). cbv zeta in IH.
    destruct (for_each E files body s1) as [[r2 s2] t2].
    cbn [result final trace fst snd] in *.
    destruct IH as (Ht & Hpre & Hret & Hcalls).
    cbn [fmap list_fmap concat fst snd trace]. split_and!.
    + by rewrite Ht.
    + by apply prefix_cons.
    + intros Hr. destruct (Hret Hr) as [Hnames Hrets]. split; [by f_equal|].
      constructor; [by exists o|done].
    + constructor; [done|]. eapply Forall_impl; [done|].
      intros c (s0 & ? & ? & ?). exists s0. split_and!; [congruence|done..].
  - cbn [fmap list_fmap concat fst snd trace]. rewrite app_nil_r. split_and!; [done| |done|].
    + apply prefix_cons, prefix_nil.
    + by constructor.
  - cbn [fmap list_fmap concat fst snd trace]. rewrite app_nil_r. split_and!; [done| |done|].
    + apply prefix_cons, prefix_nil.
    + by constructor.
Qed.

(** What each call of a batch shows, told for the state the batch starts
    from. *)
Lemma default_uploads_calls files s :
  heap s !! hosts = Some hs →
  Forall (λ c,
      length (posts (trace c.2)) ≤ length hs `min` 10
      ∧ contacted (trace c.2) ⊆+ hs
      ∧ Forall (λ a, at_hashalgo a = "sha512"
                     ∧ result (filehash E (os_path_join dirname c.1) "sha512" s)
                       = Ret (at_blobhash a)
                     ∧ ∃ blob H,
                         fs_read (fs s) (os_path_join dirname c.1) = Some blob
                         ∧ hashlib_new E "sha512" = Some H
                         ∧ hexdigest H blob = Some (at_blobhash a)
                         ∧ at_request a
                           = request_for E (at_host a) auth branch "sha512"
                               (at_blobhash a) blob)
          (posts (trace c.2))
      ∧ ∀ o, result c.2 = Ret o →
          (∃ digest, result (filehash E (os_path_join dirname c.1) "sha512" s) = Ret digest)
          ∧ hd_error (trace c.2) = Some (upload_started (os_path_join dirname c.1))
          ∧ upload_starts (trace c.2) = [upload_started (os_path_join dirname c.1)]
          ∧ (o = Failed →
             last (trace c.2) = Some (upload_failed (os_path_join dirname c.1)))
          ∧ (hs ≠ [] → posts (trace c.2) ≠ [])
          ∧ (Forall (λ a, retried a = true) (posts (trace c.2)) →
             o = Failed ∧ length (posts (trace c.2)) = length hs `min` 10))
    (default_uploads E hosts dirname branch auth files s).
Proof.
  intros Hhosts.
  destruct (for_each_upload_calls files s Hhosts) as (_ & _ & _ & Hcalls).
  eapply Forall_impl; [exact Hcalls|].
  intros [f c] (s0 & Hfs0 & Hh0 & Hc). cbn [fst snd] in *. subst c.
  pose proof (upload_file_default_call s0 hosts hs (os_path_join dirname f) branch auth
                "sha512" 10 Hh0) as Hcall.
  cbv zeta in Hcall. change (Z.to_nat 10) with 10 in Hcall.
  rewrite Hfs0, (filehash_result_fs s0 s) in Hcall by done.
  destruct Hcall as (Hlen & Hsub & Hreq & Hret).
  split_and!; [done..|].
  intros o Ho. destruct (Hret o Ho) as (? & ? & ? & ? & Hne & ?).
  split_and!; [done..| |done]. intros ?. by apply Hne.
Qed.

(** The attempts of a walk: each is for one of [files], goes to one of
    the hosts and carries ['sha512'] and the digest of the bytes sent. *)
Lemma for_each_upload_attempts files s :
  heap s !! hosts = Some hs →
  Forall (λ a, ∃ f blob H,
            f ∈ files
            ∧ fs_read (fs s) (os_path_join dirname f) = Some blob
            ∧ at_host a ∈ hs
            ∧ at_hashalgo a = "sha512"
            ∧ hashlib_new E "sha512" = Some H
            ∧ hexdigest H blob = Some (at_blobhash a)
            ∧ at_request a
              = request_for E (at_host a) auth branch "sha512" (at_blobhash a) blob)
    (posts (trace (for_each E files body s))).
Proof.
  intros Hhosts.
  destruct (for_each_upload_calls files s Hhosts) as (-> & [k Hk] & _ & _).
  pose proof (default_uploads_calls files s Hhosts) as Hfacts.
  rewrite posts_concat. apply Forall_concat. rewrite <-list_fmap_compose.
  apply Forall_fmap, Forall_forall. intros c Hc. cbn [compose].
  destruct (proj1 (Forall_forall _ _) Hfacts c Hc) as (_ & Hsub & Hreq & _).
  apply Forall_forall. intros a Ha.
  destruct (proj1 (Forall_forall _ _) Hreq a Ha) as (? & _ & blob & H & ? & ? & ? & ?).
  exists c.1, blob, H. split_and!; [|done| |done..].
  - rewrite Hk. apply elem_of_app. left. by apply list_elem_of_fmap_2.
  - eapply elem_of_submseteq; [|done]. by apply list_elem_of_fmap_2.
Qed.

(** C10.  [upload_dir] does not use its [hashalgo] argument: whatever it
    is, the run is the run for ['sha512'], and it is made of the calls
    [upload_file(hosts, filename, branch, auth)] with the defaults
    ['sha512'] and 10, one per regular file of the directory in the order
    of the listing: its trace is its two opening records, the traces of
    these calls, and its closing record when it returns, which it does
    only after the call for the last file.  Each call makes at most
    [min(N, 10)] attempts for [N] hosts, and exactly that many when it
    returns with every attempt answered outside 202, 401 and 403; every
    attempt carries ['sha512'], the digest [filehash] computes with it for
    the file of the call, and the bytes of that file; a call that returns
    has hashed its file, started its upload and, with a host to try, made
    an attempt.  So every attempt of the batch carries ['sha512'] and the
    ['sha512'] digest of a regular file of the directory, and the batch
    makes at most 10 attempts per regular file. *)
Theorem upload_dir_ignores_hashalgo s hashalgo entries :
  heap s !! hosts = Some hs →
  fs_listdir (fs s) dirname = Some entries →
  let run := upload_dir E hosts dirname branch auth hashalgo s in
  let files := regular_files (fs s) dirname entries in
  let calls := default_uploads E hosts dirname branch auth files s in
  run = upload_dir E hosts dirname branch auth "sha512" s
  ∧ Forall (λ a, at_hashalgo a = "sha512"
                 ∧ ∃ f, f ∈ files
                        ∧ result (filehash E (os_path_join dirname f) "sha512" s)
                          = Ret (at_blobhash a))
      (posts (trace run))
  ∧ length (posts (trace run)) ≤ 10 * length files
  ∧ trace run
    = [Log INFO "Open directory for files ...";
       Log DEBUG "Go through all files in directory"]
      ++ concat ((λ c, trace c.2) <$> calls)
      ++ match result run with
         | Ret _ => [Log INFO "Iteration through files over."]
         | _ => []
         end
  ∧ calls.*1 `prefix_of` files
  ∧ (result run = Ret tt →
     calls.*1 = files ∧ Forall (λ c, ∃ o, result c.2 = Ret o) calls)
  ∧ Forall (λ c,
        length (posts (trace c.2)) ≤ length hs `min` 10
        ∧ contacted (trace c.2) ⊆+ hs
        ∧ Forall (λ a, at_hashalgo a = "sha512"
                       ∧ result (filehash E (os_path_join dirname c.1) "sha512" s)
                         = Ret (at_blobhash a)
                       ∧ ∃ blob H,
                           fs_read (fs s) (os_path_join dirname c.1) = Some blob
                           ∧ hashlib_new E "sha512" = Some H
                           ∧ hexdigest H blob = Some (at_blobhash a)
                           ∧ at_request a
                             = request_for E (at_host a) auth branch "sha512"
                                 (at_blobhash a) blob)
            (posts (trace c.2))
        ∧ ∀ o, result c.2 = Ret o →
            (∃ digest,
               result (filehash E (os_path_join dirname c.1) "sha512" s) = Ret digest)
            ∧ hd_error (trace c.2) = Some (upload_started (os_path_join dirname c.1))
            ∧ upload_starts (trace c.2) = [upload_started (os_path_join dirname c.1)]
            ∧ (o = Failed →
               last (trace c.2) = Some (upload_failed (os_path_join dirname c.1)))
            ∧ (hs ≠ [] → posts (trace c.2) ≠ [])
            ∧ (Forall (λ a, retried a = true) (posts (trace c.2)) →
               o = Failed ∧ length (posts (trace c.2)) = length hs `min` 10))
      calls.
Proof.
  intros Hhosts Hdir run files calls. subst run files calls. split; [done|].
  rewrite (upload_dir_run _ _ _ _ _ entries) by done.
  destruct (for_each_upload_run hosts hs dirname branch auth
              (regular_files (fs s) dirname entries) s Hhosts)
    as (_ & _ & _ & _ & _ & Hdig & Hlen).
  destruct (for_each_upload_calls (regular_files (fs s) dirname entries) s Hhosts)
    as (Ht & Hpre & Hret & _).
  pose proof (default_uploads_calls (regular_files (fs s) dirname entries) s Hhosts)
    as Hfacts.
  destruct (for_each E _ body s) as [[r s'] t]. cbn [result trace fst snd] in *.
  assert (Hp : posts ([Log INFO "Open directory for files ...";
                       Log DEBUG "Go through all files in directory"] ++ t ++
                      match r with
                      | Ret _ => [Log INFO "Iteration through files over."]
                      | _ => []
                      end) = posts t).
  { rewrite !posts_app. destruct r; cbn; by rewrite app_nil_r. }
  rewrite Hp. split_and!; [done|done|by rewrite Ht|done| |done].
  intros Hr. apply Hret. by destruct r as [[]| |].
Qed.

(** X11.  Every POST of a batch sends the bytes of one of the regular files
    of the directory, under the ['sha512'] digest of those bytes, with the
    caller's branch and credentials. *)
Theorem upload_dir_requests s hashalgo entries :
  heap s !! hosts = Some hs →
  fs_listdir (fs s) dirname = Some entries →
  Forall (λ a, ∃ f blob digest H,
            f ∈ entries
            ∧ fs_isfile (fs s) (os_path_join dirname f) = true
            ∧ fs_read (fs s) (os_path_join dirname f) = Some blob
            ∧ hashlib_new E "sha512" = Some H
            ∧ hexdigest H blob = Some digest
            ∧ at_request a = request_for E (at_host a) auth branch "sha512" digest blob)
    (posts (trace (upload_dir E hosts dirname branch auth hashalgo s))).
Proof.
  intros Hhosts Hdir. destruct (upload_dir_posts hashalgo entries s Hdir) as [-> _].
  destruct (for_each_upload_posts (regular_files (fs s) dirname entries) s Hhosts)
    as [Hreq _].
  eapply Forall_impl; [done|]. intros a (f & blob & digest & H & Hf & ? & ? & ? & ?).
  apply list_elem_of_filter in Hf as [Hfile Hf]. by exists f, blob, digest, H.
Qed.

(** X12.  The budget is per file.  When every attempt of a batch comes back
    with a status outside 202, 401 and 403 and the regular files can be
    read, [upload_dir] returns, and between its two opening records and
    its closing record its trace is one stretch per regular file, in the
    order of the listing.  The stretch of a file begins with the record
    that its upload starts, the only such record in it, and ends with the
    record that its upload failed; it holds exactly [min(N, 10)] attempts,
    [N] the number of hosts, each with the bytes of that file and its
    ['sha512'] digest, and to hosts drawn from the pool without
    replacement.  In all that is [min(N, 10)] attempts times the number of
    regular files. *)
Theorem upload_dir_budget_per_file s hashalgo entries :
  heap s !! hosts = Some hs →
  fs_listdir (fs s) dirname = Some entries →
  is_Some (hashlib_new E "sha512") →
  Forall (λ f, is_Some (fs_read (fs s) (os_path_join dirname f)))
    (regular_files (fs s) dirname entries) →
  let run := upload_dir E hosts dirname branch auth hashalgo s in
  Forall (λ a, retried a = true) (posts (trace run)) →
  result run = Ret tt
  ∧ length (posts (trace run))
    = length (regular_files (fs s) dirname entries) * (length hs `min` 10)
  ∧ ∃ stretches,
      trace run
      = [Log INFO "Open directory for files ...";
         Log DEBUG "Go through all files in directory"]
        ++ concat stretches ++ [Log INFO "Iteration through files over."]
      ∧ Forall2 (λ f t,
            hd_error t = Some (upload_started (os_path_join dirname f))
            ∧ upload_starts t = [upload_started (os_path_join dirname f)]
            ∧ last t = Some (upload_failed (os_path_join dirname f))
            ∧ length (posts t) = length hs `min` 10
            ∧ contacted t ⊆+ hs
            ∧ Forall (λ a, at_hashalgo a = "sha512"
                           ∧ ∃ blob H,
                               fs_read (fs s) (os_path_join dirname f) = Some blob
                               ∧ hashlib_new E "sha512" = Some H
                               ∧ hexdigest H blob = Some (at_blobhash a)
                               ∧ at_request a
                                 = request_for E (at_host a) auth branch "sha512"
                                     (at_blobhash a) blob)
                (posts t))
          (regular_files (fs s) dirname entries) stretches.
Proof.
  intros Hhosts Hdir Halgo Hfiles run. subst run.
  destruct (upload_dir_posts hashalgo entries s Hdir) as [Hp Hret].
  destruct (for_each_upload_posts (regular_files (fs s) dirname entries) s Hhosts)
    as [_ Hcount].
  intros Hall. rewrite Hp in Hall. destruct (Hcount Halgo Hfiles Hall) as [Hr Hlen].
  split_and!; [by apply Hret|by rewrite Hp|].
  destruct (for_each_upload_calls (regular_files (fs s) dirname entries) s Hhosts)
    as (Ht & _ & Hrets & _).
  destruct (Hrets Hr) as [Hnames Hreturn].
  pose proof (default_uploads_calls (regular_files (fs s) dirname entries) s Hhosts)
    as Hfacts.
  rewrite Ht, posts_concat in Hall. apply Forall_concat in Hall.
  rewrite !Forall_fmap in Hall.
  exists ((λ c, trace c.2)
            <$> default_uploads E hosts dirname branch auth
                  (regular_files (fs s) dirname entries) s).
  split.
  { rewrite (upload_dir_run _ _ _ _ _ entries) by done.
    destruct (for_each E _ body s) as [[r s'] t]. cbn [result trace fst snd] in *.
    by rewrite Hr, Ht. }
  revert Hnames Hreturn Hfacts Hall.
  generalize (default_uploads E hosts dirname branch auth
                (regular_files (fs s) dirname entries) s).
  intros calls <- Hreturn Hfacts Hall.
  apply Forall2_fmap, Forall_Forall2_diag, Forall_forall. intros c Hc.
  destruct (proj1 (Forall_forall _ _) Hreturn c Hc) as [o Ho].
  pose proof (proj1 (Forall_forall _ _) Hall c Hc) as Hre. unfold compose in Hre.
  destruct (proj1 (Forall_forall _ _) Hfacts c Hc) as (_ & Hsub & Hreq & Hdone).
  destruct (Hdone o Ho) as (_ & Hhead & Hstart & Hlast & _ & Hexh).
  destruct (Hexh Hre) as [-> Hn].
  split_and!; [done|done|by apply Hlast|done|done|].
  eapply Forall_impl; [exact Hreq|]. intros a (? & _ & ?). done.
Qed.

(** X13.  A batch leaves the caller's [hosts] list, and every list object
    there was, as it found them, however it ends: each file starts from
    the whole pool. *)
Theorem upload_dir_preserves_hosts s hashalgo :
  heap s !! hosts = Some hs →
  let run := upload_dir E hosts dirname branch auth hashalgo s in
  heap (final run) !! hosts = Some hs
  ∧ heap s `prefix_of` heap (final run)
  ∧ fs (final run) = fs s.
Proof.
  intros Hhosts run. subst run.
  assert (heap s `prefix_of`
          heap (final (upload_dir E hosts dirname branch auth hashalgo s))
          ∧ fs (final (upload_dir E hosts dirname branch auth hashalgo s)) = fs s)
    as [Hpre Hfs].
  { destruct (fs_listdir (fs s) dirname) as [entries|] eqn:Hdir.
    - rewrite (upload_dir_run _ _ _ _ _ entries) by done.
      destruct (for_each_upload_run hosts hs dirname branch auth
                  (regular_files (fs s) dirname entries) s Hhosts) as (Hfs & Hpre & _).
      by destruct (for_each E _ body s) as [[r s'] t].
    - unfold upload_dir. unfold_M. unfold os_listdir. by rewrite Hdir. }
  split_and!; [by eapply prefix_lookup_Some|done..].
Qed.

(** X14.  [upload_dir] needs a directory it can list with a regular file
    in it to contact a host.  If [os.listdir] raises, it raises [OSError]
    after its first record; if no entry is a regular file it returns
    after its three records; the state is as before. *)
Theorem upload_dir_nothing_to_upload s hashalgo :
  let run := upload_dir E hosts dirname branch auth hashalgo s in
  match fs_listdir (fs s) dirname with
  | None =>
      run = (Raise (OSError dirname), s, [Log INFO "Open directory for files ..."])
  | Some entries =>
      Forall (λ f, fs_isfile (fs s) (os_path_join dirname f) = false) entries →
      run = (Ret tt, s,
             [Log INFO "Open directory for files ...";
              Log DEBUG "Go through all files in directory";
              Log INFO "Iteration through files over."])
  end.
Proof.
  intros run. subst run. destruct (fs_listdir (fs s) dirname) as [entries|] eqn:Hdir.
  - intros Hnone. rewrite (upload_dir_run _ _ _ _ _ entries) by done.
    replace (regular_files (fs s) dirname entries) with (@nil string); [done|].
    symmetry. unfold regular_files. clear Hdir.
    induction Hnone as [|f entries Hf _ IH]; [done|].
    rewrite filter_cons_False; [done|]. by rewrite Hf.
  - unfold upload_dir. unfold_M. unfold os_listdir. by rewrite Hdir.
Qed.
End DirectoryMore.

(** ** [main] *)

Section Main.
Context (execfile : string → string + gmap string string) (isdir : string → bool).

(** X15.  [main] fails on an auth file that does not define both
    [blobber_username] and [blobber_password] before it does anything:
    it raises [KeyError] for the first of the two that is missing, with
    nothing logged, nothing sent and the state as it was. *)
Theorem main_missing_credential args s credentials :
  execfile (arg_auth args) = inr credentials →
  credentials !! "blobber_username" = None ∨ credentials !! "blobber_password" = None →
  ∃ key,
    main E execfile isdir args s = (KeyError key, s, [])
    ∧ credentials !! key = None
    ∧ (key = "blobber_username"
       ∨ key = "blobber_password" ∧ is_Some (credentials !! "blobber_username")).
Proof.
  intros Hexec Hmissing. unfold main. rewrite Hexec.
  destruct (credentials !! "blobber_username") as [username|] eqn:Hu.
  - destruct Hmissing as [?|Hp]; [done|]. rewrite Hp.
    exists "blobber_password". split_and!; [done..|]. right. split; [done|by eexists].
  - exists "blobber_username". split_and!; [done..|]. by left.
Qed.

(** X16.  Whatever [main] sends, it sends for the [FILE] of the command
    line to one of the URLs of the command line: every POST goes to a
    host of the [--url] list and carries the bytes, as they are on the
    disk, of a regular file that is [FILE] itself without [--dir], and
    with [--dir] an entry of the listing of the directory [FILE]; with it
    go the two credentials of the auth file, the branch of the command
    line and the defaults of [upload_file]: ['sha512'] and the
    ['sha512'] digest of the bytes sent. *)
Theorem main_requests args s hs :
  heap s !! arg_url args = Some hs →
  Forall (λ a, ∃ credentials username password filename blob H,
            execfile (arg_auth args) = inr credentials
            ∧ credentials !! "blobber_username" = Some username
            ∧ credentials !! "blobber_password" = Some password
            ∧ (if arg_dir args then
                 isdir (arg_FILE args) = true
                 ∧ ∃ entries f,
                     fs_listdir (fs s) (arg_FILE args) = Some entries
                     ∧ f ∈ entries
                     ∧ filename = os_path_join (arg_FILE args) f
               else filename = arg_FILE args)
            ∧ fs_isfile (fs s) filename = true
            ∧ fs_read (fs s) filename = Some blob
            ∧ at_host a ∈ hs
            ∧ at_hashalgo a = "sha512"
            ∧ hashlib_new E "sha512" = Some H
            ∧ hexdigest H blob = Some (at_blobhash a)
            ∧ at_request a
              = request_for E (at_host a) (username, password) (arg_branch args) "sha512"
                  (at_blobhash a) blob)
    (posts (main E execfile isdir args s).2).
Proof.
  intros Hhosts. unfold main.
  destruct (execfile (arg_auth args)) as [what|credentials] eqn:Hexec; [constructor|].
  destruct (credentials !! "blobber_username") as [username|] eqn:Hu; [|constructor].
  destruct (credentials !! "blobber_password") as [password|] eqn:Hp; [|constructor].
  cbn zeta. destruct (arg_dir args).
  - destruct (isdir (arg_FILE args)) eqn:Hkind; [|constructor].
    destruct (fs_listdir (fs s) (arg_FILE args)) as [entries|] eqn:Hdir.
    + destruct (upload_dir_posts (arg_url args) (arg_FILE args) (arg_branch args)
                  (username, password) default_hashalgo entries s Hdir) as [Hposts _].
      pose proof (for_each_upload_attempts (arg_url args) hs (arg_FILE args)
                    (arg_branch args) (username, password)
                    (regular_files (fs s) (arg_FILE args) entries) s Hhosts) as Hreq.
      destruct (upload_dir E _ _ _ _ _ s) as [[r s'] t]. cbn [trace snd] in *.
      rewrite Hposts. eapply Forall_impl; [done|].
      intros a (f & blob & H & Hf & ? & ? & ? & ? & ? & ?).
      apply list_elem_of_filter in Hf as [Hfile Hf].
      exists credentials, username, password, (os_path_join (arg_FILE args) f), blob, H.
      split_and!; try done. by exists entries, f.
    + unfold upload_dir. unfold_M. unfold os_listdir. rewrite Hdir. constructor.
  - destruct (fs_isfile (fs s) (arg_FILE args)) eqn:Hkind; [|constructor].
    destruct (upload_file_default_call s (arg_url args) hs (arg_FILE args) (arg_branch args)
                (username, password) "sha512" 10 Hhosts) as (_ & Hsub & Hreq & _).
    unfold default_hashalgo, default_attempts.
    destruct (upload_file E _ _ _ _ _ _ _ s) as [[r s'] t]. cbn [trace snd] in *.
    apply Forall_forall. intros a Ha.
    destruct (proj1 (Forall_forall _ _) Hreq a Ha) as (? & _ & blob & H & ? & ? & ? & ?).
    exists credentials, username, password, (arg_FILE args), blob, H.
    split_and!; try done.
    eapply elem_of_submseteq; [|done]. by apply list_elem_of_fmap_2.
Qed.

(** X17.  Without [--dir], [main] makes at most [min(N, 10)] attempts for
    [N] URLs on the command line, and leaves the list of URLs as it
    was. *)
Theorem main_single_file_budget args s hs :
  heap s !! arg_url args = Some hs →
  arg_dir args = false →
  let run := main E execfile isdir args s in
  length (posts run.2) ≤ length hs `min` 10
  ∧ heap run.1.2 !! arg_url args = Some hs.
Proof.
  intros Hhosts Hd run. subst run. unfold main. rewrite Hd.
  destruct (execfile (arg_auth args)) as [what|credentials]; [split; [simpl; lia|done]|].
  destruct (credentials !! "blobber_username") as [username|]; [|split; [simpl; lia|done]].
  destruct (credentials !! "blobber_password") as [password|]; [|split; [simpl; lia|done]].
  cbn zeta. destruct (fs_isfile (fs s) (arg_FILE args)); [|split; [simpl; lia|done]].
  pose proof (upload_file_run (arg_url args) hs (arg_FILE args) (arg_branch args)
                (username, password) default_hashalgo None default_attempts s Hhosts)
    as (_ & Hpre & _).
  pose proof (upload_file_loop_run (arg_url args) hs (arg_FILE args) (arg_branch args)
                (username, password) default_hashalgo None default_attempts s Hhosts)
    as Hrun.
  destruct (upload_file E _ _ _ _ _ _ _ s) as [[r s'] t].
  cbn [result final trace fst snd] in *. split; [|by eapply prefix_lookup_Some].
  destruct Hrun as [(_ & -> & _)|(digest & pool & _ & Hperm & Hrun)]; [simpl; lia|].
  pose proof (loop_run_budget _ _ _ _ _ _ _ _ _ _ Hrun) as Hbudget.
  destruct (loop_run_hosts _ _ _ _ _ _ _ _ _ _ Hrun) as [k Hk].
  apply (f_equal length) in Hk.
  rewrite length_app, length_reverse, length_fmap, Hperm in Hk.
  unfold default_attempts in Hbudget. lia.
Qed.
End Main.

End Proofs.

(** * Concrete runs

    Runs of the scripted environment of [Scenario]: each instantiates one
    of the results above, or shows what the program does on an input. *)

(** The scenario of the specification: three hosts, a budget of 10, the
    first host answers 500, the second 202 with a URL that HEAD finds: the
    upload succeeds after two attempts and the third host is not
    contacted. *)
Example second_host_accepts :
  result (Scenario.upload Scenario.second_accepts Scenario.three_hosts 10)
  = Ret (Succeeded "https://cdn/x")
  ∧ contacted (trace (Scenario.upload Scenario.second_accepts Scenario.three_hosts 10))
    = ["H1"; "H2"].
Proof. by vm_compute. Qed.

(** A 202 answer whose [x-blob-url] header is the empty string counts as
    one without the header: [Failed], and no HEAD request. *)
Example accepted_with_empty_url :
  let run := Scenario.upload (Scenario.mkScript [Scenario.accepted_at ""] [] [])
               Scenario.three_hosts 10 in
  result run = Ret Failed ∧ heads (trace run) = [] ∧ length (posts (trace run)) = 1.
Proof. by vm_compute. Qed.

(** With a budget that is not positive the loop is not entered. *)
Example no_budget_no_attempt :
  trace (Scenario.upload Scenario.all_500 Scenario.three_hosts (-1))
  = [Log INFO "Try to upload build.log ..."; Log WARNING "Uploading build.log file failed!"].
Proof. by vm_compute. Qed.

Lemma upload_file_distinct_hosts_witness :
  length (posts (trace (Scenario.upload Scenario.all_500 Scenario.three_hosts 2))) ≤ 3 `min` 2
  ∧ contacted (trace (Scenario.upload Scenario.all_500 Scenario.three_hosts 2))
    ⊆+ Scenario.three_hosts
  ∧ NoDup (contacted (trace (Scenario.upload Scenario.all_500 Scenario.three_hosts 2))).
Proof.
  destruct (upload_file_distinct_hosts Scenario.env
              (Scenario.start Scenario.all_500 Scenario.three_hosts) 0 Scenario.three_hosts
              "build.log" "try" Scenario.credentials "sha512" None 2 eq_refl)
    as (Hlen & Hsub & Hnd).
  split_and!; [exact Hlen|exact Hsub|]. apply Hnd. compute_done.
Defined.

Lemma upload_file_succeeds_on_verified_202_witness :
  result (Scenario.upload Scenario.second_accepts Scenario.three_hosts 10)
  = Ret (Succeeded "https://cdn/x")
  ∧ ∃ pre, posts (trace (Scenario.upload Scenario.second_accepts Scenario.three_hosts 10))
           = pre ++ [Scenario.attempt "H2" (Scenario.accepted_at "https://cdn/x")].
Proof.
  apply (upload_file_succeeds_on_verified_202 Scenario.env
           (Scenario.start Scenario.second_accepts Scenario.three_hosts) 0
           Scenario.three_hosts "build.log" "try" Scenario.credentials "sha512" None 10
           (Scenario.attempt "H2" (Scenario.accepted_at "https://cdn/x"))
           (mkResponse 202 {[ "x-blob-url" := "https://cdn/x" ]})
           "https://cdn/x" (Scenario.status_only 200)).
  - reflexivity.
  - vm_compute. repeat constructor.
  - reflexivity.
  - reflexivity.
  - vm_compute. reflexivity.
  - vm_compute. repeat constructor.
  - reflexivity.
Defined.

Lemma upload_file_stops_on_auth_failure_witness :
  posts (trace (Scenario.upload Scenario.first_forbidden Scenario.three_hosts 10))
  = [Scenario.attempt "H1" (Scenario.status_only 401)]
  ∧ result (Scenario.upload Scenario.first_forbidden Scenario.three_hosts 10) = Ret Failed.
Proof.
  destruct (upload_file_stops_on_auth_failure Scenario.env
              (Scenario.start Scenario.first_forbidden Scenario.three_hosts) 0
              Scenario.three_hosts "build.log" "try" Scenario.credentials "sha512" None 10
              (Scenario.attempt "H1" (Scenario.status_only 401)) [] 401 eq_refl) as [_ Hr].
  - vm_compute. reflexivity.
  - reflexivity.
  - by left.
  - split; [vm_compute; reflexivity|exact Hr].
Defined.

Lemma upload_file_exhausts_budget_witness :
  result (Scenario.upload Scenario.all_500 Scenario.three_hosts 2) = Ret Failed
  ∧ length (posts (trace (Scenario.upload Scenario.all_500 Scenario.three_hosts 2))) = 2.
Proof.
  apply (upload_file_exhausts_budget Scenario.env
           (Scenario.start Scenario.all_500 Scenario.three_hosts) 0 Scenario.three_hosts
           "build.log" "try" Scenario.credentials "sha512" None 2).
  - reflexivity.
  - split; [by eexists|]. intros _. split; by eexists.
  - simpl. lia.
  - vm_compute. repeat constructor.
Defined.

Lemma upload_file_fails_on_202_without_url_witness :
  result (Scenario.upload Scenario.second_accepts_without_url Scenario.three_hosts 10)
  = Ret Failed
  ∧ heads (trace (Scenario.upload Scenario.second_accepts_without_url
                    Scenario.three_hosts 10)) = []
  ∧ ∃ pre, posts (trace (Scenario.upload Scenario.second_accepts_without_url
                           Scenario.three_hosts 10))
           = pre ++ [Scenario.attempt "H2" (Scenario.status_only 202)].
Proof.
  apply (upload_file_fails_on_202_without_url Scenario.env
           (Scenario.start Scenario.second_accepts_without_url Scenario.three_hosts) 0
           Scenario.three_hosts "build.log" "try" Scenario.credentials "sha512" None 10
           (Scenario.attempt "H2" (Scenario.status_only 202)) (mkResponse 202 ∅)).
  - reflexivity.
  - vm_compute. repeat constructor.
  - reflexivity.
  - reflexivity.
  - reflexivity.
Defined.

Lemma upload_file_empty_hosts_witness :
  posts (trace (Scenario.upload Scenario.all_500 [] 10)) = []
  ∧ heads (trace (Scenario.upload Scenario.all_500 [] 10)) = []
  ∧ result (Scenario.upload Scenario.all_500 [] 10) = Ret Failed.
Proof.
  destruct (upload_file_empty_hosts Scenario.env (Scenario.start Scenario.all_500 []) 0
              "build.log" "try" Scenario.credentials "sha512" None 10 eq_refl)
    as (Hposts & Hheads & Hfailed).
  split_and!; [exact Hposts|exact Hheads|].
  apply Hfailed. intros _. split; by eexists.
Defined.

Lemma upload_file_preserves_hosts_witness :
  heap (final (Scenario.upload Scenario.second_accepts Scenario.three_hosts 10)) !! 0
  = Some Scenario.three_hosts
  ∧ [Scenario.three_hosts]
    `prefix_of` heap (final (Scenario.upload Scenario.second_accepts Scenario.three_hosts 10)).
Proof.
  apply (upload_file_preserves_hosts Scenario.env
           (Scenario.start Scenario.second_accepts Scenario.three_hosts) 0
           Scenario.three_hosts).
  reflexivity.
Defined.

Lemma filehash_deterministic_and_reused_witness :
  result (filehash Scenario.env "build.log" "sha512"
            (Scenario.start Scenario.all_500 Scenario.three_hosts))
  = result (filehash Scenario.env "logs/a" "sha512"
              (Scenario.start Scenario.second_accepts []))
  ∧ Forall (λ a, at_hashalgo a = "sha512" ∧ at_blobhash a = "2")
      (posts (trace (Scenario.upload Scenario.all_500 Scenario.three_hosts 10))).
Proof.
  destruct (filehash_deterministic_and_reused Scenario.env
              (Scenario.start Scenario.all_500 Scenario.three_hosts)
              (Scenario.start Scenario.second_accepts [])
              "build.log" "logs/a" "sha512" ["a"; "b"]%byte 0 Scenario.three_hosts
              "try" Scenario.credentials 10 eq_refl eq_refl eq_refl) as (Hdet & _ & Hreuse).
  split; [exact Hdet|]. apply Hreuse. vm_compute. reflexivity.
Defined.


Lemma upload_dir_ignores_hashalgo_witness :
  Scenario.upload_logs Scenario.all_500 "md5" = Scenario.upload_logs Scenario.all_500 "sha512"
  ∧ Forall (λ a, at_hashalgo a = "sha512"
                 ∧ ∃ f, f ∈ ["a"; "b"; "c"]
                        ∧ result (filehash Scenario.env (os_path_join "logs" f) "sha512"
                                    (Scenario.start Scenario.all_500 Scenario.three_hosts))
                          = Ret (at_blobhash a))
      (posts (trace (Scenario.upload_logs Scenario.all_500 "md5")))
  ∧ length (posts (trace (Scenario.upload_logs Scenario.all_500 "md5"))) ≤ 10 * 3
  ∧ (default_uploads Scenario.env 0 "logs" "try" Scenario.credentials ["a"; "b"; "c"]
       (Scenario.start Scenario.all_500 Scenario.three_hosts)).*1 = ["a"; "b"; "c"]
  ∧ Forall (λ c, length (posts (trace c.2)) ≤ 3 `min` 10
                 ∧ Forall (λ a, at_hashalgo a = "sha512"
                                ∧ result (filehash Scenario.env (os_path_join "logs" c.1)
                                            "sha512"
                                            (Scenario.start Scenario.all_500
                                               Scenario.three_hosts))
                                  = Ret (at_blobhash a))
                     (posts (trace c.2)))
      (default_uploads Scenario.env 0 "logs" "try" Scenario.credentials ["a"; "b"; "c"]
         (Scenario.start Scenario.all_500 Scenario.three_hosts)).
Proof.
  destruct (upload_dir_ignores_hashalgo Scenario.env 0 Scenario.three_hosts "logs" "try"
              Scenario.credentials (Scenario.start Scenario.all_500 Scenario.three_hosts)
              "md5" ["a"; "b"; "sub"; "c"] eq_refl eq_refl)
    as (Hsame & Hdigests & Hbound & _ & _ & Hret & Hcalls).
  split_and!; [exact Hsame|exact Hdigests|exact Hbound| |].
  - apply Hret. vm_compute. reflexivity.
  - eapply Forall_impl; [exact Hcalls|]. intros c (Hlen & _ & Hreq & _).
    split; [exact Hlen|]. eapply Forall_impl; [exact Hreq|].
    intros a (Halgo & Hdigest & _). split; [exact Halgo|exact Hdigest].
Defined.


(** * More concrete runs *)

Lemma filehash_reads_blocks_witness :
  ∃ blocks,
    concat blocks = ["a"; "b"]%byte
    ∧ Forall (λ block, block ≠ [] ∧ (N.of_nat (length block) ≤ 1024 ^ 2)%N) blocks
    ∧ filehash Scenario.env "build.log" "sha512"
        (Scenario.start Scenario.all_500 Scenario.three_hosts)
      = (Ret (h_hexdigest Scenario.byte_count
                (foldl (h_update Scenario.byte_count) (h_new Scenario.byte_count) blocks)),
         Scenario.start Scenario.all_500 Scenario.three_hosts, []).
Proof.
  apply (filehash_reads_blocks Scenario.env
           (Scenario.start Scenario.all_500 Scenario.three_hosts) "build.log" "sha512"
           Scenario.byte_count ["a"; "b"]%byte); reflexivity.
Defined.

Lemma filehash_whole_file_witness :
  result (filehash Scenario.env "build.log" "sha512"
            (Scenario.start Scenario.all_500 Scenario.three_hosts))
  = Ret (h_hexdigest Scenario.byte_count
           (h_update Scenario.byte_count (h_new Scenario.byte_count) ["a"; "b"]%byte)).
Proof.
  apply (filehash_whole_file Scenario.env
           (Scenario.start Scenario.all_500 Scenario.three_hosts) "build.log" "sha512"
           Scenario.byte_count ["a"; "b"]%byte).
  - reflexivity.
  - reflexivity.
  - intros h a b. cbn. rewrite length_app. lia.
Defined.

Lemma upload_file_unreadable_witness :
  posts (trace (upload_file Scenario.env 0 "missing.log" "try" Scenario.credentials "sha512"
                  (Some "2") 10 (Scenario.start Scenario.all_500 Scenario.three_hosts))) = []
  ∧ heads (trace (upload_file Scenario.env 0 "missing.log" "try" Scenario.credentials
                    "sha512" (Some "2") 10
                    (Scenario.start Scenario.all_500 Scenario.three_hosts))) = []
  ∧ result (upload_file Scenario.env 0 "missing.log" "try" Scenario.credentials "sha512"
              (Some "2") 10 (Scenario.start Scenario.all_500 Scenario.three_hosts))
    = Raise (IOError "missing.log").
Proof.
  destruct (upload_file_unreadable Scenario.env
              (Scenario.start Scenario.all_500 Scenario.three_hosts) 0 Scenario.three_hosts
              "missing.log" "try" Scenario.credentials "sha512" (Some "2") 10
              eq_refl eq_refl) as (Hposts & Hheads & Hraise).
  split_and!; [exact Hposts|exact Hheads|]. apply Hraise; [done|lia].
Defined.

Lemma upload_file_requests_witness :
  Forall (λ a, ∃ blob digest,
            fs_read Scenario.disk "build.log" = Some blob
            ∧ at_request a
              = request_for Scenario.env (at_host a) Scenario.credentials "try" "sha512"
                  digest blob
            ∧ ∃ H, hashlib_new Scenario.env "sha512" = Some H
                   ∧ hexdigest H blob = Some digest)
    (posts (trace (Scenario.upload Scenario.all_500 Scenario.three_hosts 2))).
Proof.
  apply (upload_file_requests Scenario.env
           (Scenario.start Scenario.all_500 Scenario.three_hosts) 0 Scenario.three_hosts
           "build.log" "try" Scenario.credentials "sha512" None 2).
  reflexivity.
Defined.

Lemma upload_file_transport_error_witness :
  result (Scenario.upload Scenario.first_refused Scenario.three_hosts 10)
  = Raise (RequestException "connection refused")
  ∧ heads (trace (Scenario.upload Scenario.first_refused Scenario.three_hosts 10)) = []
  ∧ ∃ pre, posts (trace (Scenario.upload Scenario.first_refused Scenario.three_hosts 10))
           = pre ++ [Scenario.attempt "H1" Scenario.refused].
Proof.
  apply (upload_file_transport_error Scenario.env
           (Scenario.start Scenario.first_refused Scenario.three_hosts) 0
           Scenario.three_hosts "build.log" "try" Scenario.credentials "sha512" None 10
           (Scenario.attempt "H1" Scenario.refused) (RequestException "connection refused")).
  - reflexivity.
  - vm_compute. repeat constructor.
  - reflexivity.
Defined.

Lemma upload_file_retries_only_transient_witness :
  Forall (λ a, retried a = true) [Scenario.attempt "H1" (Scenario.status_only 500)].
Proof.
  apply (upload_file_retries_only_transient Scenario.env
           (Scenario.start Scenario.second_accepts Scenario.three_hosts) 0
           Scenario.three_hosts "build.log" "try" Scenario.credentials "sha512" None 10
           [Scenario.attempt "H1" (Scenario.status_only 500)]
           (Scenario.attempt "H2" (Scenario.accepted_at "https://cdn/x"))).
  - reflexivity.
  - vm_compute. reflexivity.
Defined.

Lemma upload_file_success_is_verified_witness :
  ∃ pre a resp ret_,
    posts (trace (Scenario.upload Scenario.second_accepts Scenario.three_hosts 10))
    = pre ++ [a]
    ∧ at_result a = inr resp
    ∧ status_code resp = 202%Z
    ∧ headers resp !! "x-blob-url" = Some "https://cdn/x"
    ∧ heads (trace (Scenario.upload Scenario.second_accepts Scenario.three_hosts 10))
      = [("https://cdn/x", inr ret_)]
    ∧ ok ret_ = true.
Proof.
  apply (upload_file_success_is_verified Scenario.env
           (Scenario.start Scenario.second_accepts Scenario.three_hosts) 0
           Scenario.three_hosts "build.log" "try" Scenario.credentials "sha512" None 10
           "https://cdn/x").
  - reflexivity.
  - vm_compute. reflexivity.
Defined.

Lemma upload_file_head_discipline_witness :
  length (heads (trace (Scenario.upload Scenario.second_accepts Scenario.three_hosts 10))) ≤ 1
  ∧ ∀ blob_url res,
      (blob_url, res)
      ∈ heads (trace (Scenario.upload Scenario.second_accepts Scenario.three_hosts 10)) →
      blob_url ≠ ""
      ∧ ∃ a resp,
          last (posts (trace (Scenario.upload Scenario.second_accepts
                                Scenario.three_hosts 10))) = Some a
          ∧ at_result a = inr resp
          ∧ status_code resp = 202%Z
          ∧ headers resp !! "x-blob-url" = Some blob_url.
Proof.
  apply (upload_file_head_discipline Scenario.env
           (Scenario.start Scenario.second_accepts Scenario.three_hosts) 0
           Scenario.three_hosts "build.log" "try" Scenario.credentials "sha512" None 10).
  reflexivity.
Defined.

Lemma upload_file_tries_every_host_witness :
  contacted (trace (Scenario.upload Scenario.all_500 Scenario.three_hosts 3))
  ≡ₚ Scenario.three_hosts.
Proof.
  apply (upload_file_tries_every_host Scenario.env
           (Scenario.start Scenario.all_500 Scenario.three_hosts) 0 Scenario.three_hosts
           "build.log" "try" Scenario.credentials "sha512" None 3).
  - reflexivity.
  - split; [by eexists|]. intros _. split; by eexists.
  - simpl. lia.
  - vm_compute. repeat constructor.
Defined.

Lemma upload_file_last_record_witness :
  last (trace (Scenario.upload Scenario.second_accepts Scenario.three_hosts 10))
  = Some (upload_succeeded "build.log" "https://cdn/x").
Proof.
  apply (upload_file_last_record Scenario.env
           (Scenario.start Scenario.second_accepts Scenario.three_hosts) 0
           Scenario.three_hosts "build.log" "try" Scenario.credentials "sha512" None 10
           (Succeeded "https://cdn/x")).
  - reflexivity.
  - vm_compute. reflexivity.
Defined.

Lemma upload_dir_requests_witness :
  Forall (λ a, ∃ f blob digest H,
            f ∈ ["a"; "b"; "sub"; "c"]
            ∧ fs_isfile Scenario.disk (os_path_join "logs" f) = true
            ∧ fs_read Scenario.disk (os_path_join "logs" f) = Some blob
            ∧ hashlib_new Scenario.env "sha512" = Some H
            ∧ hexdigest H blob = Some digest
            ∧ at_request a
              = request_for Scenario.env (at_host a) Scenario.credentials "try" "sha512"
                  digest blob)
    (posts (trace (Scenario.upload_logs Scenario.all_500 "md5"))).
Proof.
  apply (upload_dir_requests Scenario.env 0 Scenario.three_hosts "logs" "try"
           Scenario.credentials (Scenario.start Scenario.all_500 Scenario.three_hosts)
           "md5" ["a"; "b"; "sub"; "c"]); reflexivity.
Defined.

Lemma upload_dir_budget_per_file_witness :
  result (Scenario.upload_logs Scenario.all_500 "sha512") = Ret tt
  ∧ length (posts (trace (Scenario.upload_logs Scenario.all_500 "sha512"))) = 3 * (3 `min` 10)
  ∧ ∃ stretches,
      trace (Scenario.upload_logs Scenario.all_500 "sha512")
      = [Log INFO "Open directory for files ...";
         Log DEBUG "Go through all files in directory"]
        ++ concat stretches ++ [Log INFO "Iteration through files over."]
      ∧ Forall2 (λ f t, hd_error t = Some (upload_started (os_path_join "logs" f))
                        ∧ last t = Some (upload_failed (os_path_join "logs" f))
                        ∧ length (posts t) = 3 `min` 10)
          ["a"; "b"; "c"] stretches.
Proof.
  destruct (upload_dir_budget_per_file Scenario.env 0 Scenario.three_hosts "logs" "try"
              Scenario.credentials (Scenario.start Scenario.all_500 Scenario.three_hosts)
              "sha512" ["a"; "b"; "sub"; "c"] eq_refl eq_refl)
    as (Hret & Hlen & stretches & Htrace & Hstretches).
  - by eexists.
  - vm_compute. repeat constructor; by eexists.
  - vm_compute. repeat constructor.
  - split_and!; [exact Hret|exact Hlen|]. exists stretches. split; [exact Htrace|].
    eapply Forall2_impl; [exact Hstretches|].
    intros f t (Hhead & _ & Hlast & Hn & _). split_and!; [exact Hhead|exact Hlast|exact Hn].
Defined.

Lemma upload_dir_preserves_hosts_witness :
  heap (final (Scenario.upload_logs Scenario.second_accepts "sha512")) !! 0
  = Some Scenario.three_hosts
  ∧ [Scenario.three_hosts]
    `prefix_of` heap (final (Scenario.upload_logs Scenario.second_accepts "sha512"))
  ∧ fs (final (Scenario.upload_logs Scenario.second_accepts "sha512")) = Scenario.disk.
Proof.
  apply (upload_dir_preserves_hosts Scenario.env 0 Scenario.three_hosts "logs" "try"
           Scenario.credentials (Scenario.start Scenario.second_accepts Scenario.three_hosts)
           "sha512").
  reflexivity.
Defined.

Lemma upload_dir_nothing_to_upload_witness :
  upload_dir Scenario.env 0 "dirs" "try" Scenario.credentials "sha512"
    (mkState (Scenario.all_500 : World Scenario.env) Scenario.bare_disk
       [Scenario.three_hosts])
  = (Ret tt,
     mkState (Scenario.all_500 : World Scenario.env) Scenario.bare_disk
       [Scenario.three_hosts],
     [Log INFO "Open directory for files ...";
      Log DEBUG "Go through all files in directory";
      Log INFO "Iteration through files over."]).
Proof.
  apply (upload_dir_nothing_to_upload Scenario.env 0 "dirs" "try" Scenario.credentials
           (mkState (Scenario.all_500 : World Scenario.env) Scenario.bare_disk
              [Scenario.three_hosts]) "sha512").
  repeat constructor.
Defined.

Lemma main_missing_credential_witness :
  ∃ key,
    main Scenario.env Scenario.auth_files Scenario.is_directory
      (Scenario.command_line "half.py" false "build.log")
      (Scenario.start Scenario.all_500 Scenario.three_hosts)
    = (KeyError key, Scenario.start Scenario.all_500 Scenario.three_hosts, [])
    ∧ ({[ "blobber_username" := "user" ]} : gmap string string) !! key = None
    ∧ (key = "blobber_username"
       ∨ key = "blobber_password"
         ∧ is_Some (({[ "blobber_username" := "user" ]} : gmap string string)
                      !! "blobber_username")).
Proof.
  apply (main_missing_credential Scenario.env Scenario.auth_files Scenario.is_directory
           (Scenario.command_line "half.py" false "build.log")
           (Scenario.start Scenario.all_500 Scenario.three_hosts)).
  - reflexivity.
  - right. reflexivity.
Defined.

Lemma main_requests_witness :
  Forall (λ a, ∃ credentials username password filename blob H,
            Scenario.auth_files "auth.py" = inr credentials
            ∧ credentials !! "blobber_username" = Some username
            ∧ credentials !! "blobber_password" = Some password
            ∧ (Scenario.is_directory "logs" = true
               ∧ ∃ entries f,
                   fs_listdir Scenario.disk "logs" = Some entries
                   ∧ f ∈ entries
                   ∧ filename = os_path_join "logs" f)
            ∧ fs_isfile Scenario.disk filename = true
            ∧ fs_read Scenario.disk filename = Some blob
            ∧ at_host a ∈ Scenario.three_hosts
            ∧ at_hashalgo a = "sha512"
            ∧ hashlib_new Scenario.env "sha512" = Some H
            ∧ hexdigest H blob = Some (at_blobhash a)
            ∧ at_request a
              = request_for Scenario.env (at_host a) (username, password) "try" "sha512"
                  (at_blobhash a) blob)
    (posts (main Scenario.env Scenario.auth_files Scenario.is_directory
              (Scenario.command_line "auth.py" true "logs")
              (Scenario.start Scenario.all_500 Scenario.three_hosts)).2)
  ∧ Forall (λ a, ∃ credentials username password filename blob H,
              Scenario.auth_files "auth.py" = inr credentials
              ∧ credentials !! "blobber_username" = Some username
              ∧ credentials !! "blobber_password" = Some password
              ∧ filename = "build.log"
              ∧ fs_isfile Scenario.disk filename = true
              ∧ fs_read Scenario.disk filename = Some blob
              ∧ at_host a ∈ Scenario.three_hosts
              ∧ at_hashalgo a = "sha512"
              ∧ hashlib_new Scenario.env "sha512" = Some H
              ∧ hexdigest H blob = Some (at_blobhash a)
              ∧ at_request a
                = request_for Scenario.env (at_host a) (username, password) "try" "sha512"
                    (at_blobhash a) blob)
      (posts (main Scenario.env Scenario.auth_files Scenario.is_directory
                (Scenario.command_line "auth.py" false "build.log")
                (Scenario.start Scenario.all_500 Scenario.three_hosts)).2).
Proof.
  split.
  - apply (main_requests Scenario.env Scenario.auth_files Scenario.is_directory
             (Scenario.command_line "auth.py" true "logs")
             (Scenario.start Scenario.all_500 Scenario.three_hosts) Scenario.three_hosts).
    reflexivity.
  - apply (main_requests Scenario.env Scenario.auth_files Scenario.is_directory
             (Scenario.command_line "auth.py" false "build.log")
             (Scenario.start Scenario.all_500 Scenario.three_hosts) Scenario.three_hosts).
    reflexivity.
Defined.

Lemma main_single_file_budget_witness :
  length (posts (main Scenario.env Scenario.auth_files Scenario.is_directory
                   (Scenario.command_line "auth.py" false "build.log")
                   (Scenario.start Scenario.all_500 Scenario.three_hosts)).2) ≤ 3 `min` 10
  ∧ heap (main Scenario.env Scenario.auth_files Scenario.is_directory
            (Scenario.command_line "auth.py" false "build.log")
            (Scenario.start Scenario.all_500 Scenario.three_hosts)).1.2 !! 0
    = Some Scenario.three_hosts.
Proof.
  apply (main_single_file_budget Scenario.env Scenario.auth_files Scenario.is_directory
           (Scenario.command_line "auth.py" false "build.log")
           (Scenario.start Scenario.all_500 Scenario.three_hosts) Scenario.three_hosts);
    reflexivity.
Defined.

Lemma upload_file_no_budget_witness :
  posts (trace (Scenario.upload Scenario.all_500 Scenario.three_hosts 0)) = []
  ∧ heads (trace (Scenario.upload Scenario.all_500 Scenario.three_hosts 0)) = []
  ∧ result (Scenario.upload Scenario.all_500 Scenario.three_hosts 0) = Ret Failed.
Proof.
  destruct (upload_file_no_budget Scenario.env
              (Scenario.start Scenario.all_500 Scenario.three_hosts) 0 Scenario.three_hosts
              "build.log" "try" Scenario.credentials "sha512" None 0 eq_refl)
    as (Hposts & Hheads & Hfailed); [lia|].
  split_and!; [exact Hposts|exact Hheads|].
  apply Hfailed. intros _. split; by eexists.
Defined.

(** [main] on the directory [logs], every POST answered 500: three files,
    three attempts each; on a regular file with [--dir], nothing. *)
Example main_uploads_directory :
  length (posts (main Scenario.env Scenario.auth_files Scenario.is_directory
                   (Scenario.command_line "auth.py" true "logs")
                   (Scenario.start Scenario.all_500 Scenario.three_hosts)).2) = 9
  ∧ main Scenario.env Scenario.auth_files Scenario.is_directory
      (Scenario.command_line "auth.py" true "build.log")
      (Scenario.start Scenario.all_500 Scenario.three_hosts)
    = (Exit (Ret tt), Scenario.start Scenario.all_500 Scenario.three_hosts, []).
Proof. by vm_compute. Qed.

(** A batch over [logs] with twelve hosts, every POST answered 500,
    whatever [hashalgo] is given: each of the three files is tried on ten
    hosts, under ['sha512'] and the digest of its own bytes. *)
Example batch_of_twelve_hosts :
  let hosts := ["H1"; "H2"; "H3"; "H4"; "H5"; "H6"; "H7"; "H8"; "H9"; "H10"; "H11"; "H12"] in
  let calls := default_uploads Scenario.env 0 "logs" "try" Scenario.credentials
                 ["a"; "b"; "c"] (Scenario.start Scenario.all_500 hosts) in
  (λ c, (c.1, length (posts (trace c.2)))) <$> calls = [("a", 10); ("b", 10); ("c", 10)]
  ∧ (λ c, remove_dups ((λ a, (at_hashalgo a, at_blobhash a)) <$> posts (trace c.2))) <$> calls
    = [[("sha512", "2")]; [("sha512", "3")]; [("sha512", "0")]]
  ∧ trace (upload_dir Scenario.env 0 "logs" "try" Scenario.credentials "md5"
             (Scenario.start Scenario.all_500 hosts))
    = [Log INFO "Open directory for files ...";
       Log DEBUG "Go through all files in directory"]
      ++ concat ((λ c, trace c.2) <$> calls)
      ++ [Log INFO "Iteration through files over."].
Proof. by vm_compute. Qed.
